(** * SEIR_4dvar: the transition functions and their callers

    A shallow embedding of the Python code of the notebook [4dvar_seir.ipynb]:
    [lorenz_step], [lorenz_evol_step], [seir_step], [generate_outputs_seir],
    the simulation loop and [prepare_obs].

    Numbers.  A state vector is a NumPy array of [float64]; its items are
    of type [np_float]: a finite value, [inf], [-inf] or [nan].  A finite
    value is a rational [Q], and [+], [-], [*], [/] on finite values are the
    exact field operations the update equations are written with: rounding,
    overflow and the sign of zero of binary64 are not modelled, and neither
    are arrays of integer type.  The special values behave as in IEEE 754:
    [0/0], [inf - inf] and [0 * inf] are [nan], [x/0] is an infinity, [nan]
    propagates and every comparison with [nan] is false.  Equality of finite
    values is [Qeq] ([==]).

    The code also computes with Python's own numbers (the [0] of
    [max(x, 0)], the step [d = 0.01]); a [num] is either.  An operation on
    two Python numbers gives a Python number, any other a NumPy scalar.

    Errors.  Python raises where an unpacking assignment gets the wrong
    number of items ([ValueError]) and where a Python number is divided by a
    Python zero ([ZeroDivisionError]).  A division in which a NumPy scalar
    takes part does not raise: NumPy warns and returns [nan] or an infinity.
    Outcomes are of type [result]. *)

From Stdlib Require Import QArith Qabs ZArith List Lia Lqa Bool.
Import ListNotations.

Set Implicit Arguments.

(** ** Outcomes of a call *)

Inductive exn : Type :=
| ValueError
| ZeroDivisionError.

Inductive result (A : Type) : Type :=
| Ok (a : A)
| Raise (e : exn).

Arguments Ok {A} a.
Arguments Raise {A} e.

Module Result.

Definition bind {A B : Type} (r : result A) (k : A -> result B) : result B :=
  match r with
  | Ok a => k a
  | Raise e => Raise e
  end.

End Result.

Declare Scope result_scope.
Delimit Scope result_scope with result.
Notation "x <- r ;; k" := (Result.bind r (fun x => k))
  (at level 61, r at next level, right associativity) : result_scope.
Notation "' pat <- r ;; k" :=
  (Result.bind r (fun x => match x with pat => k end))
  (at level 61, pat pattern, r at next level, right associativity)
  : result_scope.

Local Open Scope Q_scope.

(** ** NumPy scalars *)

Inductive np_float : Type :=
| Fin (q : Q)
| PInf
| NInf
| NaN.

(** The array of the finite numbers [l]. *)
Definition finite (l : list Q) : list np_float := map Fin l.

Definition np_opp (x : np_float) : np_float :=
  match x with
  | Fin a => Fin (- a)
  | PInf => NInf
  | NInf => PInf
  | NaN => NaN
  end.

Definition np_add (x y : np_float) : np_float :=
  match x with
  | NaN => NaN
  | Fin a =>
      match y with
      | Fin b => Fin (a + b)
      | other => other
      end
  | PInf =>
      match y with
      | NaN | NInf => NaN
      | Fin _ | PInf => PInf
      end
  | NInf =>
      match y with
      | NaN | PInf => NaN
      | Fin _ | NInf => NInf
      end
  end.

Definition np_sub (x y : np_float) : np_float := np_add x (np_opp y).

(** An infinity times the finite [a]: [nan] for 0, else the infinity with
    the sign of the product; [positive] is the sign of the infinity. *)
Definition inf_times (positive : bool) (a : Q) : np_float :=
  if Qeq_bool a 0 then NaN
  else if Bool.eqb positive (Qle_bool 0 a) then PInf else NInf.

Definition np_mul (x y : np_float) : np_float :=
  match x with
  | NaN => NaN
  | Fin a =>
      match y with
      | Fin b => Fin (a * b)
      | PInf => inf_times true a
      | NInf => inf_times false a
      | NaN => NaN
      end
  | PInf =>
      match y with
      | Fin b => inf_times true b
      | PInf => PInf
      | NInf => NInf
      | NaN => NaN
      end
  | NInf =>
      match y with
      | Fin b => inf_times false b
      | PInf => NInf
      | NInf => PInf
      | NaN => NaN
      end
  end.

(** NumPy's [x / y]: it never raises. *)
Definition np_div (x y : np_float) : np_float :=
  match x with
  | NaN => NaN
  | Fin a =>
      match y with
      | Fin b =>
          if Qeq_bool b 0 then
            if Qeq_bool a 0 then NaN
            else if Qle_bool 0 a then PInf else NInf
          else Fin (a / b)
      | PInf | NInf => Fin 0
      | NaN => NaN
      end
  | PInf =>
      match y with
      | Fin b => if Qle_bool 0 b then PInf else NInf
      | _ => NaN
      end
  | NInf =>
      match y with
      | Fin b => if Qle_bool 0 b then NInf else PInf
      | _ => NaN
      end
  end.

(** [x > y]. *)
Definition np_gt (x y : np_float) : bool :=
  match x with
  | NaN | NInf => false
  | Fin a =>
      match y with
      | Fin b => negb (Qle_bool a b)
      | NInf => true
      | PInf | NaN => false
      end
  | PInf =>
      match y with
      | Fin _ | NInf => true
      | PInf | NaN => false
      end
  end.

Definition np_abs (x : np_float) : np_float :=
  match x with
  | Fin a => Fin (Qabs a)
  | PInf | NInf => PInf
  | NaN => NaN
  end.

(** ** Python numbers and NumPy scalars together *)

Inductive num : Type :=
| Py (q : Q)
| Np (x : np_float).

(** The value a number has once it is stored in an array ([np.array]). *)
Definition to_np (a : num) : np_float :=
  match a with
  | Py q => Fin q
  | Np x => x
  end.

Definition py_add (a b : num) : num :=
  match a, b with
  | Py p, Py q => Py (p + q)
  | _, _ => Np (np_add (to_np a) (to_np b))
  end.

Definition py_sub (a b : num) : num :=
  match a, b with
  | Py p, Py q => Py (p - q)
  | _, _ => Np (np_sub (to_np a) (to_np b))
  end.

Definition py_mul (a b : num) : num :=
  match a, b with
  | Py p, Py q => Py (p * q)
  | _, _ => Np (np_mul (to_np a) (to_np b))
  end.

(** [a / b]: Python raises on its own zero divisor, NumPy does not. *)
Definition py_div (a b : num) : result num :=
  match a, b with
  | Py p, Py q =>
      if Qeq_bool q 0 then Raise ZeroDivisionError else Ok (Py (p / q))
  | _, _ => Ok (Np (np_div (to_np a) (to_np b)))
  end.

(** [a > b]. *)
Definition py_gt (a b : num) : bool := np_gt (to_np a) (to_np b).

(** [max(x, y)]: the first argument is kept unless the second is strictly
    greater. *)
Definition py_max (x y : num) : num :=
  if py_gt y x then y else x.

(** [abs(x)]. *)
Definition py_abs (x : num) : num :=
  match x with
  | Py q => Py (Qabs q)
  | Np x => Np (np_abs x)
  end.

Declare Scope num_scope.
Delimit Scope num_scope with num.
Bind Scope num_scope with num.
Infix "+" := py_add : num_scope.
Infix "-" := py_sub : num_scope.
Infix "*" := py_mul : num_scope.

(** ** The SEIR model *)

(** [lambda x : max(x, 0)] *)
Definition py_clamp (x : num) : num := py_max x (Py 0).

(** [seir_step(state)].  [state] is the raveled state vector
    [S, E, I, R, D, alfa, beta, eps, gamma]: [np.ravel] makes its items NumPy
    scalars, and [np.array] makes the items of the result NumPy scalars. *)
Definition seir_step (state : list np_float) : result (list np_float) :=
  let state := map Np state in
  let state := map py_clamp state in
  match state with
  | [S_old; E_old; I_old; R_old; D_old; alfa; beta; eps; gamma] =>
      let N := (S_old + E_old + I_old + R_old)%num in
      let D := (D_old + alfa * I_old)%num in
      (q1 <- py_div (S_old * beta * I_old)%num N ;;
       let S := (S_old - q1)%num in
       q2 <- py_div (S_old * beta * I_old)%num N ;;
       let E := (E_old + q2 - eps * E_old)%num in
       let I := (I_old + eps * E_old - (alfa + gamma) * I_old)%num in
       let R := (R_old + gamma * I_old)%num in
       let results := [S; E; I; R; D; alfa; beta; eps; gamma] in
       Ok (map to_np results))%result
  | _ => Raise ValueError
  end.

(** The loop [for step in range(steps): state = seir_step(state)] of
    [generate_outputs_seir] (there with 200 steps). *)
Fixpoint seir_run (steps : nat) (state : list np_float)
  : result (list np_float) :=
  match steps with
  | O => Ok state
  | S steps' => (state' <- seir_step state ;; seir_run steps' state')%result
  end.

(** ** The Lorenz-63 model *)

(** The notebook global [d = 0.01], a Python float. *)
Definition d : num := Py (1 # 100).

(** [lorenz_step(state, _, rho, sigma, beta)]: the three derivatives.  The
    second argument (the time of [odeint]) is not used and is left out. *)
Definition lorenz_step (state : list num) (rho sigma beta : num)
  : result (num * num * num) :=
  match state with
  | [x; y; z] =>
      Ok (sigma * (y - x), x * (rho - z) - y, x * y - beta * z)%num
  | _ => Raise ValueError
  end.

(** [lorenz_evol_step(state)].  [state] is the array
    [x, y, z, rho, sigma, beta]; the value of the first statement,
    [list(np.ravel(state))], is dropped by the source.  The names [rho],
    [sigma], [beta] are rebound to the absolute values, and it is the rebound
    names that are returned. *)
Definition lorenz_evol_step (state : list np_float) : result (list np_float) :=
  match map Np state with
  | [x; y; z; rho; sigma; beta] =>
      match map py_abs [rho; sigma; beta] with
      | [rho; sigma; beta] =>
          ('(dx, dy, dz) <- lorenz_step [x; y; z] rho sigma beta ;;
           Ok (map to_np [x + d * dx; y + d * dy; z + d * dz;
                          rho; sigma; beta]%num))%result
      | _ => Raise ValueError
      end
  | _ => Raise ValueError
  end.

(** ** Reading a vector of finite numbers *)

(** [state[i]], with 0 where the vector is too short. *)
Definition item (i : nat) (state : list Q) : Q := nth i state 0.

Definition S_of (state : list Q) : Q := item 0 state.
Definition E_of (state : list Q) : Q := item 1 state.
Definition I_of (state : list Q) : Q := item 2 state.
Definition R_of (state : list Q) : Q := item 3 state.
Definition D_of (state : list Q) : Q := item 4 state.

(** The alive population [S + E + I + R]. *)
Definition alive (state : list Q) : Q :=
  S_of state + E_of state + I_of state + R_of state.

(** [state[i]] of an array; the code reads it only where it is there, and
    [nan] stands where it is not. *)
Definition np_item (i : nat) (state : list np_float) : np_float :=
  nth i state NaN.

(** The bounds the notebook documents for the four rates. *)
Definition documented_bounds (alfa beta eps gamma : Q) : Prop :=
  ((1 # 1000) <= alfa /\ alfa <= (1 # 100)) /\
  (0 <= beta /\ beta <= 7) /\
  ((5 # 100) <= eps /\ eps <= (5 # 10)) /\
  ((5 # 100) <= gamma /\ gamma <= (5 # 10)).

Definition compartments_nonneg (S E I R D : Q) : Prop :=
  0 <= S /\ 0 <= E /\ 0 <= I /\ 0 <= R /\ 0 <= D.

(** ** The update on finite numbers *)

(** The finite number that [max(x, 0)] gives for the finite [x]. *)
Definition clamp (x : Q) : Q := if Qle_bool 0 x then x else 0.

(** [0 > x] for a finite [x]: then [max(x, 0)] is Python's [0], otherwise it
    is the NumPy scalar [x]. *)
Definition negative (x : Q) : bool := negb (Qle_bool 0 x).

(** The update equations on already clamped finite numbers; [t] is the
    quotient [S_old * beta * I_old / N]. *)
Definition seir_update (S E I R D alfa beta eps gamma t : Q) : list Q :=
  [S - t; E + t - eps * E; I + eps * E - (alfa + gamma) * I; R + gamma * I;
   D + alfa * I; alfa; beta; eps; gamma].

(** [0 > x] on a NumPy scalar. *)
Definition np_negative (x : np_float) : bool := np_gt (Fin 0) x.

(** [max(x, 0)] on a NumPy scalar, stored as a NumPy scalar. *)
Definition np_clamp (x : np_float) : np_float :=
  if np_gt (Fin 0) x then Fin 0 else x.

(** The update equations in NumPy arithmetic, on already clamped scalars. *)
Definition np_seir_update (S E I R D alfa beta eps gamma : np_float)
  : list np_float :=
  let N := np_add (np_add (np_add S E) I) R in
  let t := np_div (np_mul (np_mul S beta) I) N in
  [np_sub S t;
   np_sub (np_add E t) (np_mul eps E);
   np_sub (np_add I (np_mul eps E)) (np_mul (np_add alfa gamma) I);
   np_add R (np_mul gamma I);
   np_add D (np_mul alfa I);
   alfa; beta; eps; gamma].

(** A state from which the run goes on for ever: E, I, R are non-negative,
    the alive total after clamping is positive and the rates are in their
    bounds. *)
Definition seir_live (state : list Q) : Prop :=
  exists S E I R D alfa beta eps gamma,
    state = [S; E; I; R; D; alfa; beta; eps; gamma] /\
    0 <= E /\ 0 <= I /\ 0 <= R /\ 0 < clamp S + E + I + R /\
    documented_bounds alfa beta eps gamma.

(** The initial state of [generate_outputs_seir] with the rates of the
    spec's example scenario. *)
Definition seir_example : list Q :=
  [39900000; 60000; 10000; 80000; 2300; 7 # 1000; 2; 2 # 10; 14 # 100].

(** One susceptible and one infectious individual, [beta] at its upper
    bound. *)
Definition state_S_negative : list Q :=
  [1; 0; 1; 0; 0; 1 # 128; 7; 1 # 8; 1 # 8].

(** One infectious individual, a fatality rate of 1 and no recovery. *)
Definition state_all_die : list Q :=
  [0; 0; 1; 0; 0; 1; 2; 1 # 8; 0].

(** ** Callers of the transition functions *)

(** [n] rebindings [state = M(state)], as the loops of the notebook do them;
    the first exception ends the loop. *)
Fixpoint advance {X : Type} (M : X -> result X) (n : nat) (x : X) : result X :=
  match n with
  | O => Ok x
  | S n' => (x' <- M x ;; advance M n' x')%result
  end.

(** [initial_state] of [generate_outputs_seir]. *)
Definition initial_state : list Q := [39900000; 60000; 10000; 80000; 2300].

(** The inner loop of [generate_outputs_seir],
    [for step in range(steps): state = seir_step(state); if state[:][2] >
    max_infected: max_infected = state[:][2]]; the source runs it with 200
    steps.  After a step [state] has nine items, so [state[:][2]] is there. *)
Fixpoint seir_peak_loop (steps : nat) (state : list np_float)
         (max_infected : num) : result (list np_float * num) :=
  match steps with
  | O => Ok (state, max_infected)
  | S steps' =>
      (state <- seir_step state ;;
       let max_infected :=
         if py_gt (Np (np_item 2 state)) max_infected
         then Np (np_item 2 state)
         else max_infected in
       seir_peak_loop steps' state max_infected)%result
  end.

(** The body of the outer loop of [generate_outputs_seir] for one row
    [params]: the values stored in [output_final[i]] and [output_max[i]]. *)
Definition seir_outputs (params : list np_float)
  : result (np_float * np_float) :=
  let state := finite initial_state ++ params in
  let max_infected := Py 0 in
  ('(state, max_infected) <- seir_peak_loop 200 state max_infected ;;
   Ok (np_item 4 state, to_np max_infected))%result.

(** The outer loop of [generate_outputs_seir]; the two lists hold the entries
    of [output_final] and [output_max] assigned so far. *)
Fixpoint generate_outputs_seir_loop
         (parameter_combinations : list (list np_float))
         (output_final output_max : list np_float)
  : result (list np_float * list np_float) :=
  match parameter_combinations with
  | [] => Ok (output_final, output_max)
  | params :: rest =>
      ('(final, peak) <- seir_outputs params ;;
       generate_outputs_seir_loop rest (output_final ++ [final])
                                  (output_max ++ [peak]))%result
  end.

(** [generate_outputs_seir(parameter_combinations)]. *)
Definition generate_outputs_seir
           (parameter_combinations : list (list np_float))
  : result (list np_float * list np_float) :=
  generate_outputs_seir_loop parameter_combinations [] [].

(** [states[i] = v] for a row of [np.empty((days, 5))]: a vector of five
    items is stored, a vector of one item is broadcast, any other length is
    refused. *)
Definition assign_row (v : list np_float) : result (list np_float) :=
  match v with
  | [x] => Ok [x; x; x; x; x]
  | [_; _; _; _; _] => Ok v
  | _ => Raise ValueError
  end.

(** The simulation loop of the notebook,
    [for i in range(days): states[i] = state[:5][:,0]; state = seir_step(state)];
    [states] holds the rows assigned so far. *)
Fixpoint seir_simulation_loop (days : nat) (state : list np_float)
         (states : list (list np_float)) : result (list (list np_float)) :=
  match days with
  | O => Ok states
  | S days' =>
      (row <- assign_row (firstn 5 state) ;;
       state' <- seir_step state ;;
       seir_simulation_loop days' state' (states ++ [row]))%result
  end.

Definition seir_simulation (days : nat) (state : list np_float)
  : result (list (list np_float)) :=
  seir_simulation_loop days state [].

(** ** Invariants of a run *)

(** What a run of [seir_step] from non-negative compartments [S0 .. D0] with
    rates in their bounds keeps true of every state it reaches. *)
Definition seir_reach (S0 R0 D0 alfa beta eps gamma : Q) (state : list Q)
  : Prop :=
  exists S E I R D,
    state = [S; E; I; R; D; alfa; beta; eps; gamma] /\
    0 <= E /\ 0 <= I /\ 0 <= R /\ 0 <= D /\
    0 < clamp S + E + I + R /\
    clamp S <= S0 /\ R0 <= R /\ D0 <= D.

(** The same for a transmission rate of at most 1: S too stays non-negative
    and the total [T] of the living and the dead is kept. *)
Definition seir_closed (T alfa beta eps gamma : Q) (state : list Q) : Prop :=
  exists S E I R D,
    state = [S; E; I; R; D; alfa; beta; eps; gamma] /\
    0 <= S /\ 0 <= E /\ 0 <= I /\ 0 <= R /\ 0 <= D /\
    0 < S + E + I + R /\ S + E + I + R + D == T.

(** A state without exposed or infectious individuals that agrees, as
    numbers, with [S, 0, 0, R, D]. *)
Definition seir_disease_free (S0 R0 D0 alfa beta eps gamma : Q)
           (state : list Q) : Prop :=
  exists S E I R D,
    state = [S; E; I; R; D; alfa; beta; eps; gamma] /\
    S == S0 /\ E == 0 /\ I == 0 /\ R == R0 /\ D == D0.

(** ** Callables and the observation generator *)

Section Callables.

(** What a Python callable can read and write besides the value of its
    argument: the notebook's globals (such as [d]) and the objects its
    argument refers to. *)
Variable G : Type.

(** A call runs from a store, ends with a value or an exception, and leaves
    a store. *)
Definition py (A : Type) : Type := G -> result A * G.

Definition py_ret {A : Type} (a : A) : py A := fun g => (Ok a, g).

Definition py_bind {A B : Type} (c : py A) (k : A -> py B) : py B :=
  fun g =>
    match c g with
    | (Ok a, g') => k a g'
    | (Raise e, g') => (Raise e, g')
    end.

(** A callable that is a total function of its argument. *)
Definition pure_fn {A B : Type} (f : A -> B) : A -> py B :=
  fun a => py_ret (f a).

(** A callable that is a function of its argument and may raise. *)
Definition partial_fn {A B : Type} (f : A -> result B) : A -> py B :=
  fun a g => (f a, g).

(** A callable that leaves the store as it found it. *)
Definition reads_only {A B : Type} (f : A -> py B) : Prop :=
  forall a g, snd (f a g) = g.

Variables X Obs : Type.
Variable obs_operator : X -> py Obs.
Variable evolution_function : X -> py X.

(** Modelled from the spec: the two expressions the source leaves blank
    ([???]) in the loop body of [prepare_obs], an exercise for the reader
    of the notebook.  The spec's contract, "repeatedly observing the current
    state then advancing it", gives [observations.append(obs_operator(state))]
    and [state = evolution_function(state)].  The rest -- the empty list, the
    loop over [range(size)], the rebinding of the local [state], the
    returned list -- is the source's.  [remaining] counts the iterations
    still to run. *)
Fixpoint prepare_obs_loop (remaining : nat) (state : X)
         (observations : list Obs) : py (list Obs) :=
  match remaining with
  | O => py_ret observations
  | S remaining' =>
      py_bind (obs_operator state) (fun o =>
      let observations := observations ++ [o] in
      py_bind (evolution_function state) (fun state =>
      prepare_obs_loop remaining' state observations))
  end.

End Callables.

Arguments py_ret {G A} a _.
Arguments pure_fn {G A B} f a _.
Arguments partial_fn {G A B} f a g.
Arguments reads_only {G A B} f.

(** [prepare_obs(state, obs_operator, evolution_function, size)]; [range(size)]
    is empty for a negative [size]. *)
Definition prepare_obs {G X Obs : Type} (state : X) (obs_operator : X -> py G Obs)
           (evolution_function : X -> py G X) (size : Z) : py G (list Obs) :=
  let observations := [] in
  prepare_obs_loop obs_operator evolution_function
                   (Z.to_nat size) state observations.

(** * Properties *)

(** ** Clamping and absolute value *)

Lemma clamp_cases (x : Q) :
  (0 <= x /\ clamp x = x) \/ (x < 0 /\ clamp x = 0).
Proof.
  unfold clamp.
  destruct (Qle_bool 0 x) eqn:Hx.
  - left. apply Qle_bool_iff in Hx. auto.
  - right. split; [| reflexivity].
    apply Qnot_le_lt. intro Hle. apply Qle_bool_iff in Hle. congruence.
Qed.

Lemma clamp_nonneg (x : Q) : 0 <= clamp x.
Proof.
  destruct (clamp_cases x) as [[H ->] | [_ ->]]; [exact H | apply Qle_refl].
Qed.

Lemma clamp_id (x : Q) : 0 <= x -> clamp x = x.
Proof.
  intro H. destruct (clamp_cases x) as [[_ E] | [Hneg _]]; [exact E |].
  exfalso. apply (Qlt_not_le _ _ Hneg H).
Qed.

Lemma clamp_neg (x : Q) : x < 0 -> clamp x = 0.
Proof.
  intro H. destruct (clamp_cases x) as [[Hpos _] | [_ E]]; [| exact E].
  exfalso. apply (Qlt_not_le _ _ H Hpos).
Qed.

Lemma clamp_above (x : Q) : x <= clamp x.
Proof.
  destruct (clamp_cases x) as [[_ ->] | [H ->]];
    [apply Qle_refl | apply Qlt_le_weak, H].
Qed.

Lemma clamp_idem (x : Q) : clamp (clamp x) = clamp x.
Proof. apply clamp_id, clamp_nonneg. Qed.

Lemma negative_true_iff (x : Q) : negative x = true <-> x < 0.
Proof.
  unfold negative. rewrite negb_true_iff. split; intro H.
  - apply Qnot_le_lt. intro K. apply Qle_bool_iff in K. congruence.
  - destruct (Qle_bool 0 x) eqn:E; [| reflexivity].
    apply Qle_bool_iff in E. exfalso. apply (Qlt_not_le _ _ H E).
Qed.

Lemma negative_false_iff (x : Q) : negative x = false <-> 0 <= x.
Proof.
  unfold negative. rewrite negb_false_iff. apply Qle_bool_iff.
Qed.

Lemma negative_clamp (x : Q) : negative x = true -> clamp x = 0.
Proof. intro H. apply clamp_neg, negative_true_iff, H. Qed.

Lemma Qabs_fixes_iff (x : Q) : Qabs x == x <-> 0 <= x.
Proof.
  split; intro H.
  - rewrite <- H. apply Qabs_nonneg.
  - apply Qabs_pos, H.
Qed.

Lemma np_clamp_Fin (x : Q) : np_clamp (Fin x) = Fin (clamp x).
Proof.
  unfold np_clamp, clamp. cbn. destruct (Qle_bool 0 x); reflexivity.
Qed.

Lemma np_negative_Fin (x : Q) : np_negative (Fin x) = negative x.
Proof. reflexivity. Qed.

Lemma finite_inj (l l' : list Q) : finite l = finite l' -> l = l'.
Proof.
  revert l'. induction l as [| a l IH]; intros [| b l'] H;
    try discriminate H; [reflexivity |].
  cbn in H. injection H as -> H. f_equal. apply IH, H.
Qed.

Lemma finite_length (l : list Q) : length (finite l) = length l.
Proof. apply length_map. Qed.

(** ** One SEIR step, unfolded *)

(** On nine scalars of any kind: the step raises when S, E, I, R and beta
    are all negative (numerator and divisor are then Python's 0), and
    otherwise returns the update of the clamped scalars in NumPy
    arithmetic. *)
Lemma seir_step_unfold (S E I R D alfa beta eps gamma : np_float) :
  seir_step [S; E; I; R; D; alfa; beta; eps; gamma] =
  if np_negative S && np_negative E && np_negative I && np_negative R
     && np_negative beta
  then Raise ZeroDivisionError
  else Ok (np_seir_update (np_clamp S) (np_clamp E) (np_clamp I) (np_clamp R)
                          (np_clamp D) (np_clamp alfa) (np_clamp beta)
                          (np_clamp eps) (np_clamp gamma)).
Proof.
  unfold seir_step, py_clamp, py_max, py_gt, np_clamp, np_negative.
  cbn [map to_np].
  destruct (np_gt (Fin 0) S), (np_gt (Fin 0) E), (np_gt (Fin 0) I),
    (np_gt (Fin 0) R), (np_gt (Fin 0) D), (np_gt (Fin 0) alfa),
    (np_gt (Fin 0) beta), (np_gt (Fin 0) eps), (np_gt (Fin 0) gamma);
    reflexivity.
Qed.

Lemma seir_step_shape (state out : list np_float) :
  seir_step state = Ok out ->
  exists S E I R D alfa beta eps gamma,
    state = [S; E; I; R; D; alfa; beta; eps; gamma].
Proof.
  intro H.
  do 10 (destruct state as [| ? state]; try discriminate H).
  do 9 eexists. reflexivity.
Qed.

Lemma seir_step_wrong_length (state : list np_float) :
  length state <> 9%nat -> seir_step state = Raise ValueError.
Proof.
  intro H.
  do 10 (destruct state as [| ? state]; [try reflexivity |]).
  - exfalso. apply H. reflexivity.
  - reflexivity.
Qed.

Lemma seir_step_length (state out : list np_float) :
  seir_step state = Ok out -> length out = 9%nat.
Proof.
  intro H. destruct (seir_step_shape _ H)
    as (S & E & I & R & D & alfa & beta & eps & gamma & ->).
  rewrite seir_step_unfold in H.
  destruct (_ && _); [discriminate H |].
  injection H as <-. reflexivity.
Qed.

(** ** One SEIR step on finite numbers *)

(** While the clamped alive total is positive the step stays within the
    finite numbers: it returns the update of the clamped numbers, with a
    quotient [t] that is non-negative and satisfies [t * N == S * beta * I]. *)
Lemma seir_step_positive_total (S E I R D alfa beta eps gamma : Q) :
  let N := clamp S + clamp E + clamp I + clamp R in
  0 < N ->
  exists t, 0 <= t /\ t * N == clamp S * clamp beta * clamp I /\
    seir_step (finite [S; E; I; R; D; alfa; beta; eps; gamma]) =
    Ok (finite (seir_update (clamp S) (clamp E) (clamp I) (clamp R) (clamp D)
                            (clamp alfa) (clamp beta) (clamp eps)
                            (clamp gamma) t)).
Proof.
  intros N HN.
  pose proof (clamp_nonneg S) as HS. pose proof (clamp_nonneg beta) as Hb.
  pose proof (clamp_nonneg I) as HI.
  assert (Hne : ~ N == 0) by (intro K; rewrite K in HN; discriminate HN).
  exists (clamp S * clamp beta * clamp I / N). split; [| split].
  - apply Qle_shift_div_l; [exact HN |]. rewrite Qmult_0_l.
    repeat apply Qmult_le_0_compat; assumption.
  - unfold Qdiv. rewrite <- Qmult_assoc.
    rewrite (Qmult_comm (/ N)). rewrite Qmult_inv_r by exact Hne.
    apply Qmult_1_r.
  - cbn [finite map]. rewrite seir_step_unfold, !np_negative_Fin, !np_clamp_Fin.
    assert (Hsome : negative S && negative E && negative I && negative R
                    && negative beta = false).
    { destruct (negative S) eqn:nS; [| reflexivity].
      destruct (negative E) eqn:nE; [| reflexivity].
      destruct (negative I) eqn:nI; [| reflexivity].
      destruct (negative R) eqn:nR; [| reflexivity].
      exfalso. apply Hne. unfold N.
      rewrite (negative_clamp _ nS), (negative_clamp _ nE),
        (negative_clamp _ nI), (negative_clamp _ nR). reflexivity. }
    rewrite Hsome. unfold np_seir_update. cbn [np_add np_mul].
    fold N. unfold np_div.
    destruct (Qeq_bool N 0) eqn:HN0.
    + exfalso. apply Hne, Qeq_bool_iff, HN0.
    + reflexivity.
Qed.

(** When the clamped alive total is zero the quotient is 0/0: the step
    raises if S, E, I, R and beta are all negative, and otherwise returns a
    state whose S and E are [nan]. *)
Lemma seir_step_zero_total (S E I R D alfa beta eps gamma : Q) :
  clamp S + clamp E + clamp I + clamp R == 0 ->
  seir_step (finite [S; E; I; R; D; alfa; beta; eps; gamma]) =
  if negative S && negative E && negative I && negative R && negative beta
  then Raise ZeroDivisionError
  else Ok (NaN :: NaN ::
           finite [clamp I + clamp eps * clamp E
                   - (clamp alfa + clamp gamma) * clamp I;
                   clamp R + clamp gamma * clamp I;
                   clamp D + clamp alfa * clamp I;
                   clamp alfa; clamp beta; clamp eps; clamp gamma]).
Proof.
  intro HN.
  cbn [finite map]. rewrite seir_step_unfold, !np_negative_Fin, !np_clamp_Fin.
  destruct (_ && _); [reflexivity |].
  unfold np_seir_update. cbn [np_add np_mul]. unfold np_div.
  assert (HN0 : Qeq_bool (clamp S + clamp E + clamp I + clamp R) 0 = true)
    by (apply Qeq_bool_iff, HN).
  rewrite HN0.
  assert (Hnum : Qeq_bool (clamp S * clamp beta * clamp I) 0 = true).
  { apply Qeq_bool_iff.
    pose proof (clamp_nonneg S). pose proof (clamp_nonneg E).
    pose proof (clamp_nonneg I). pose proof (clamp_nonneg R).
    assert (HS0 : clamp S == 0) by lra. rewrite HS0. ring. }
  rewrite Hnum. reflexivity.
Qed.

(** The clamped alive total is zero exactly when none of S, E, I, R is
    positive. *)
Lemma clamped_total_zero_iff (S E I R : Q) :
  clamp S + clamp E + clamp I + clamp R == 0 <->
  S <= 0 /\ E <= 0 /\ I <= 0 /\ R <= 0.
Proof.
  pose proof (clamp_cases S) as HS. pose proof (clamp_cases E) as HE.
  pose proof (clamp_cases I) as HI. pose proof (clamp_cases R) as HR.
  destruct HS as [[? ES] | [? ES]], HE as [[? EE] | [? EE]],
           HI as [[? EI] | [? EI]], HR as [[? ER] | [? ER]];
    rewrite ES, EE, EI, ER; split; intro K; repeat split; lra.
Qed.

Lemma clamped_total_cases (S E I R : Q) :
  0 < clamp S + clamp E + clamp I + clamp R \/
  clamp S + clamp E + clamp I + clamp R == 0.
Proof.
  pose proof (clamp_nonneg S). pose proof (clamp_nonneg E).
  pose proof (clamp_nonneg I). pose proof (clamp_nonneg R).
  destruct (Qlt_le_dec 0 (clamp S + clamp E + clamp I + clamp R)) as [K | K];
    [left; exact K | right; lra].
Qed.

(** A step from finite numbers to finite numbers is a step with a positive
    total. *)
Lemma seir_step_finite_inv (state out : list Q) :
  seir_step (finite state) = Ok (finite out) ->
  exists S E I R D alfa beta eps gamma t,
    state = [S; E; I; R; D; alfa; beta; eps; gamma] /\
    0 < clamp S + clamp E + clamp I + clamp R /\
    0 <= t /\
    t * (clamp S + clamp E + clamp I + clamp R)
    == clamp S * clamp beta * clamp I /\
    out = seir_update (clamp S) (clamp E) (clamp I) (clamp R) (clamp D)
                      (clamp alfa) (clamp beta) (clamp eps) (clamp gamma) t.
Proof.
  intro H.
  assert (Hlen : length state = 9%nat).
  { destruct (Nat.eq_dec (length state) 9) as [K | K]; [exact K |].
    rewrite seir_step_wrong_length in H; [discriminate H |].
    rewrite finite_length. exact K. }
  do 10 (destruct state as [| ? state]; try discriminate Hlen).
  match goal with
  | |- context [[?S; ?E; ?I; ?R; ?D; ?a; ?b; ?e; ?g] = _] =>
      exists S, E, I, R, D, a, b, e, g;
      set (upd := seir_update (clamp S) (clamp E) (clamp I) (clamp R)
                              (clamp D) (clamp a) (clamp b) (clamp e)
                              (clamp g));
      destruct (clamped_total_cases S E I R) as [HN | HN];
      [destruct (@seir_step_positive_total S E I R D a b e g HN)
         as (t & Ht & HtN & Hstep)
      | rewrite (@seir_step_zero_total S E I R D a b e g HN) in H]
  end.
  - rewrite Hstep in H.
    assert (K : finite (upd t) = finite out) by (injection H as H; exact H).
    apply finite_inj in K.
    exists t. repeat split; try assumption. symmetry. exact K.
  - exfalso. destruct (_ && _); [discriminate H |].
    destruct out as [| o out]; discriminate H.
Qed.

(** The same for an input that needs no clamping. *)
Lemma seir_step_valid (S E I R D alfa beta eps gamma : Q) :
  compartments_nonneg S E I R D ->
  0 <= alfa -> 0 <= beta -> 0 <= eps -> 0 <= gamma ->
  let N := S + E + I + R in
  0 < N ->
  exists t, 0 <= t /\ t * N == S * beta * I /\
    seir_step (finite [S; E; I; R; D; alfa; beta; eps; gamma]) =
    Ok (finite (seir_update S E I R D alfa beta eps gamma t)).
Proof.
  intros (HS & HE & HI & HR & HD) Ha Hb He Hg N HN.
  pose proof (@seir_step_positive_total S E I R D alfa beta eps gamma) as H.
  rewrite !clamp_id in H by assumption. exact (H HN).
Qed.

Lemma documented_bounds_nonneg (alfa beta eps gamma : Q) :
  documented_bounds alfa beta eps gamma ->
  0 <= alfa /\ 0 <= beta /\ 0 <= eps /\ 0 <= gamma.
Proof. unfold documented_bounds. intros H. repeat split; lra. Qed.

(** Once S is [nan] it stays [nan]. *)
Lemma seir_step_nan (state out : list np_float) :
  np_item 0 state = NaN -> seir_step state = Ok out -> np_item 0 out = NaN.
Proof.
  intros Hnan H. destruct (seir_step_shape _ H)
    as (S & E & I & R & D & alfa & beta & eps & gamma & ->).
  cbn in Hnan. subst S. rewrite seir_step_unfold in H. cbn in H.
  injection H as <-. reflexivity.
Qed.

Lemma seir_run_nan (steps : nat) :
  forall state out,
    np_item 0 state = NaN -> seir_run steps state = Ok out ->
    np_item 0 out = NaN.
Proof.
  induction steps as [| steps IH]; intros state out Hnan H; cbn in H.
  - injection H as <-. exact Hnan.
  - destruct (seir_step state) as [state' |] eqn:Hstep; cbn in H;
      [| discriminate H].
    apply (IH state' out); [| exact H].
    apply (seir_step_nan _ Hnan Hstep).
Qed.

Lemma seir_run_length (steps : nat) :
  forall state out,
    length state = 9%nat -> seir_run steps state = Ok out ->
    length out = 9%nat.
Proof.
  induction steps as [| steps IH]; intros state out Hlen H; cbn in H.
  - injection H as <-. exact Hlen.
  - destruct (seir_step state) as [state' |] eqn:Hstep; cbn in H;
      [| discriminate H].
    apply (IH state' out); [| exact H].
    apply (seir_step_length _ Hstep).
Qed.

(** A run that has met [nan] does not come back to finite numbers. *)
Lemma seir_run_nan_not_finite (steps : nat) (state : list np_float)
      (out : list Q) :
  length state = 9%nat -> np_item 0 state = NaN ->
  seir_run steps state = Ok (finite out) -> False.
Proof.
  intros Hlen Hnan H.
  pose proof (seir_run_nan _ _ Hnan H) as Hhead.
  pose proof (seir_run_length _ _ Hlen H) as Hout.
  destruct out as [| o out]; [discriminate Hout | discriminate Hhead].
Qed.

(** ** C1 *)

(** C1, counterexample: on a non-negative state with rates inside the
    documented bounds, [seir_step] returns a state whose S component is
    -5/2. *)
Lemma seir_step_S_can_be_negative :
  compartments_nonneg 1 0 1 0 0 /\
  documented_bounds (1 # 128) 7 (1 # 8) (1 # 8) /\
  exists out,
    seir_step (finite state_S_negative) = Ok (finite out) /\
    S_of out == - (5 # 2) /\ ~ 0 <= S_of out.
Proof.
  split; [| split].
  - unfold compartments_nonneg. repeat split; lra.
  - unfold documented_bounds. repeat split; lra.
  - exists (seir_update 1 0 1 0 0 (1 # 128) 7 (1 # 8) (1 # 8)
                        (1 * 7 * 1 / (1 + 0 + 1 + 0))).
    split; [vm_compute; reflexivity |].
    split; [vm_compute; reflexivity |].
    vm_compute. intro H. apply H. reflexivity.
Qed.

(** C1, amended: for non-negative compartments and rates in the documented
    bounds, when the alive total is positive the step returns a state of
    finite numbers in which E, I, R and D are non-negative, while S is
    non-negative exactly when S = 0 or beta * I <= S + E + I + R; when the
    alive total is zero it returns a state whose S and E are [nan]. *)
Theorem seir_step_nonneg_compartments (S E I R D alfa beta eps gamma : Q) :
  compartments_nonneg S E I R D ->
  documented_bounds alfa beta eps gamma ->
  (0 < S + E + I + R ->
   exists out,
     seir_step (finite [S; E; I; R; D; alfa; beta; eps; gamma])
     = Ok (finite out) /\
     0 <= E_of out /\ 0 <= I_of out /\ 0 <= R_of out /\ 0 <= D_of out /\
     (0 <= S_of out <-> S == 0 \/ beta * I <= S + E + I + R)) /\
  (S + E + I + R == 0 ->
   exists I' R' D',
     seir_step (finite [S; E; I; R; D; alfa; beta; eps; gamma])
     = Ok (NaN :: NaN :: finite [I'; R'; D'; alfa; beta; eps; gamma]) /\
     I' == 0 /\ R' == 0 /\ D' == D).
Proof.
  intros Hc Hb.
  destruct (documented_bounds_nonneg Hb) as (Ha0 & Hb0 & He0 & Hg0).
  split.
  - intro HN.
    destruct (seir_step_valid Hc Ha0 Hb0 He0 Hg0 HN)
      as (t & Ht & HtN & Hstep).
    eexists. split; [exact Hstep |].
    destruct Hc as (HS & HE & HI & HR & HD).
    destruct Hb as ((La & Ua) & (Lb & Ub) & (Le & Ue) & (Lg & Ug)).
    unfold E_of, I_of, R_of, D_of, S_of, item, seir_update. cbn [nth].
    repeat split.
    + nra.
    + nra.
    + nra.
    + nra.
    + intro Hle. destruct (Qeq_dec S 0) as [Hz | Hnz]; [left; exact Hz |].
      right.
      assert (0 < S)
        by (destruct (Qlt_le_dec 0 S); [assumption |];
            exfalso; apply Hnz; lra).
      nra.
    + intros [Hz | Hle]; nra.
  - intro HN. destruct Hc as (HS & HE & HI & HR & HD).
    pose proof (@seir_step_zero_total S E I R D alfa beta eps gamma) as H.
    rewrite !clamp_id in H by assumption. specialize (H HN).
    assert (HnS : negative S = false) by (apply negative_false_iff, HS).
    rewrite HnS in H. cbn [andb] in H.
    do 3 eexists. split; [exact H |].
    assert (HE0 : E == 0) by lra. assert (HI0 : I == 0) by lra.
    assert (HR0 : R == 0) by lra.
    rewrite HE0, HI0, HR0. repeat split; ring.
Qed.

Lemma seir_example_compartments :
  compartments_nonneg 39900000 60000 10000 80000 2300.
Proof. unfold compartments_nonneg. repeat split; lra. Defined.

Lemma seir_example_bounds :
  documented_bounds (7 # 1000) 2 (2 # 10) (14 # 100).
Proof. unfold documented_bounds. repeat split; lra. Defined.

Lemma seir_step_nonneg_compartments_witness :
  (0 < 39900000 + 60000 + 10000 + 80000 ->
   exists out,
     seir_step (finite seir_example) = Ok (finite out) /\
     0 <= E_of out /\ 0 <= I_of out /\ 0 <= R_of out /\ 0 <= D_of out /\
     (0 <= S_of out <->
      39900000 == 0 \/ 2 * 10000 <= 39900000 + 60000 + 10000 + 80000)) /\
  (39900000 + 60000 + 10000 + 80000 == 0 ->
   exists I' R' D',
     seir_step (finite seir_example)
     = Ok (NaN :: NaN ::
           finite [I'; R'; D'; 7 # 1000; 2; 2 # 10; 14 # 100]) /\
     I' == 0 /\ R' == 0 /\ D' == 2300).
Proof.
  exact (seir_step_nonneg_compartments
           seir_example_compartments seir_example_bounds).
Defined.

(** ** C4 *)

(** C4, counterexample: on the state whose compartments are all zero the
    quotient is 0/0 and the state returned has S = E = [nan]; on a state
    whose S, E, I, R and beta are all negative, numerator and divisor are
    Python's 0 and the division raises. *)
Lemma seir_step_divides_by_zero :
  (exists out,
      seir_step (finite [0; 0; 0; 0; 0; 1 # 128; 7; 1 # 8; 1 # 8]) = Ok out /\
      np_item 0 out = NaN /\ np_item 1 out = NaN) /\
  seir_step (finite [-1; -1; -1; -1; 0; 1 # 128; -1; 1 # 8; 1 # 8])
  = Raise ZeroDivisionError.
Proof.
  split.
  - eexists. split; [vm_compute; reflexivity |]. split; reflexivity.
  - vm_compute. reflexivity.
Qed.

(** C4, amended: [seir_step] divides by the total of the clamped S, E, I, R
    without a guard.  On finite numbers the divisor is zero exactly when
    none of S, E, I, R is positive; the step then raises
    [ZeroDivisionError] exactly when S, E, I, R and beta are all negative,
    and otherwise returns a state whose S and E are [nan]; it returns a state
    of finite numbers exactly when one of S, E, I, R is positive. *)
Theorem seir_step_zero_division_iff (S E I R D alfa beta eps gamma : Q) :
  let state := finite [S; E; I; R; D; alfa; beta; eps; gamma] in
  (clamp S + clamp E + clamp I + clamp R == 0
   <-> S <= 0 /\ E <= 0 /\ I <= 0 /\ R <= 0) /\
  (seir_step state = Raise ZeroDivisionError
   <-> S < 0 /\ E < 0 /\ I < 0 /\ R < 0 /\ beta < 0) /\
  ((exists out, seir_step state = Ok out /\
                np_item 0 out = NaN /\ np_item 1 out = NaN)
   <-> (S <= 0 /\ E <= 0 /\ I <= 0 /\ R <= 0) /\
       ~ (S < 0 /\ E < 0 /\ I < 0 /\ R < 0 /\ beta < 0)) /\
  ((exists out, seir_step state = Ok (finite out))
   <-> 0 < S \/ 0 < E \/ 0 < I \/ 0 < R).
Proof.
  intro state.
  assert (Hall : negative S && negative E && negative I && negative R
                 && negative beta = true
                 <-> S < 0 /\ E < 0 /\ I < 0 /\ R < 0 /\ beta < 0).
  { rewrite !andb_true_iff, !negative_true_iff. tauto. }
  assert (Hpos : 0 < clamp S + clamp E + clamp I + clamp R
                 <-> 0 < S \/ 0 < E \/ 0 < I \/ 0 < R).
  { pose proof (clamped_total_zero_iff S E I R) as Hz.
    pose proof (clamped_total_cases S E I R) as Hc.
    split.
    - intro K.
      destruct (Qlt_le_dec 0 S); [left; assumption |].
      destruct (Qlt_le_dec 0 E); [right; left; assumption |].
      destruct (Qlt_le_dec 0 I); [right; right; left; assumption |].
      destruct (Qlt_le_dec 0 R); [right; right; right; assumption |].
      exfalso. assert (Hz' : clamp S + clamp E + clamp I + clamp R == 0)
        by (apply Hz; repeat split; assumption).
      rewrite Hz' in K. discriminate K.
    - intro K. destruct Hc as [Hc | Hc]; [exact Hc |].
      exfalso. apply Hz in Hc. lra. }
  split; [apply clamped_total_zero_iff |].
  destruct (clamped_total_cases S E I R) as [HN | HN].
  - destruct (@seir_step_positive_total S E I R D alfa beta eps gamma HN)
      as (t & _ & _ & Hstep).
    fold state in Hstep. rewrite Hstep.
    assert (Hsome : 0 < S \/ 0 < E \/ 0 < I \/ 0 < R) by (apply Hpos, HN).
    split; [| split].
    + split; [intro K; discriminate K | intro K; exfalso; lra].
    + split.
      * intros (out & K & Hnan & _). injection K as <-. discriminate Hnan.
      * intros (K & _). exfalso. lra.
    + split; [intros _; exact Hsome | intros _; eexists; reflexivity].
  - pose proof (@seir_step_zero_total S E I R D alfa beta eps gamma HN)
      as Hstep.
    fold state in Hstep. rewrite Hstep.
    assert (Hnone : S <= 0 /\ E <= 0 /\ I <= 0 /\ R <= 0)
      by (apply clamped_total_zero_iff, HN).
    destruct (negative S && negative E && negative I && negative R
              && negative beta) eqn:Hneg.
    + assert (Hfive : S < 0 /\ E < 0 /\ I < 0 /\ R < 0 /\ beta < 0)
        by (apply Hall; reflexivity).
      split; [| split].
      * split; [intros _; exact Hfive | intros _; reflexivity].
      * split; [intros (out & K & _); discriminate K
               | intros (_ & K); contradiction].
      * split; [intros (out & K); discriminate K | intro K; exfalso; lra].
    + assert (Hnot : ~ (S < 0 /\ E < 0 /\ I < 0 /\ R < 0 /\ beta < 0)).
      { intro K. apply Hall in K. discriminate K. }
      split; [| split].
      * split; [intro K; discriminate K | intro K; contradiction].
      * split; [intros _; split; assumption |].
        intros _. eexists. split; [reflexivity |]. split; reflexivity.
      * split; [| intro K; exfalso; lra].
        intros (out & K). exfalso. injection K as K.
        destruct out as [| o out]; discriminate K.
Qed.

(** ** C5 *)

(** C5: for non-negative compartments, rates in the documented bounds and a
    positive alive total, the step returns a state of finite numbers whose
    alive population is S + E + I + R - alfa * I, which is at most
    S + E + I + R. *)
Theorem seir_step_alive_decreases (S E I R D alfa beta eps gamma : Q) :
  compartments_nonneg S E I R D ->
  documented_bounds alfa beta eps gamma ->
  0 < S + E + I + R ->
  exists out,
    seir_step (finite [S; E; I; R; D; alfa; beta; eps; gamma])
    = Ok (finite out) /\
    alive out == S + E + I + R - alfa * I /\
    alive out <= S + E + I + R.
Proof.
  intros Hc Hb HN.
  destruct (documented_bounds_nonneg Hb) as (Ha0 & Hb0 & He0 & Hg0).
  destruct (seir_step_valid Hc Ha0 Hb0 He0 Hg0 HN)
    as (t & Ht & HtN & Hstep).
  eexists. split; [exact Hstep |].
  destruct Hc as (HS & HE & HI & HR & HD).
  unfold alive, E_of, I_of, R_of, S_of, item, seir_update. cbn [nth].
  assert (Heq : S - t + (E + t - eps * E) +
                (I + eps * E - (alfa + gamma) * I) + (R + gamma * I)
                == S + E + I + R - alfa * I) by ring.
  split; [exact Heq |].
  rewrite Heq. assert (0 <= alfa * I) by (apply Qmult_le_0_compat; assumption).
  lra.
Qed.

Lemma seir_step_alive_decreases_witness :
  exists out,
    seir_step (finite seir_example) = Ok (finite out) /\
    alive out == 39900000 + 60000 + 10000 + 80000 - (7 # 1000) * 10000 /\
    alive out <= 39900000 + 60000 + 10000 + 80000.
Proof.
  apply (@seir_step_alive_decreases
           39900000 60000 10000 80000 2300 (7 # 1000) 2 (2 # 10) (14 # 100)
           seir_example_compartments seir_example_bounds).
  reflexivity.
Defined.

(** ** C6 *)

(** A step from finite numbers returns finite numbers or a state whose S is
    [nan]. *)
Lemma seir_step_finite_outcome (state : list Q) (out : list np_float) :
  seir_step (finite state) = Ok out ->
  (exists mid, out = finite mid) \/ np_item 0 out = NaN.
Proof.
  intro H. destruct (seir_step_shape _ H) as (S0 & E0 & I0 & R0 & D0 & a0 &
                                               b0 & e0 & g0 & Hshape).
  do 10 (destruct state as [| ? state]; try discriminate Hshape).
  match goal with
  | H : seir_step (finite [?S; ?E; ?I; ?R; ?D; ?a; ?b; ?e; ?g]) = _ |- _ =>
      destruct (clamped_total_cases S E I R) as [HN | HN];
      [destruct (@seir_step_positive_total S E I R D a b e g HN)
         as (t & _ & _ & Hstep); rewrite Hstep in H
      | rewrite (@seir_step_zero_total S E I R D a b e g HN) in H]
  end.
  - left.
    match type of H with Ok (finite ?m) = _ => exists m end.
    injection H as <-. reflexivity.
  - destruct (_ && _); [discriminate H |].
    injection H as <-. right. reflexivity.
Qed.

(** Cumulative deaths never go down in a step between finite states. *)
Lemma seir_step_deaths (state out : list Q) :
  seir_step (finite state) = Ok (finite out) ->
  0 <= D_of out /\ D_of state <= D_of out.
Proof.
  intro H. destruct (seir_step_finite_inv _ _ H)
    as (S & E & I & R & D & alfa & beta & eps & gamma & t & -> & _ & _ & _ & ->).
  unfold D_of, item, seir_update. cbn [nth].
  pose proof (clamp_nonneg D). pose proof (clamp_above D).
  assert (0 <= clamp alfa * clamp I)
    by (apply Qmult_le_0_compat; apply clamp_nonneg).
  split; lra.
Qed.

(** Nor do the recovered. *)
Lemma seir_step_recovered (state out : list Q) :
  seir_step (finite state) = Ok (finite out) ->
  0 <= R_of out /\ R_of state <= R_of out.
Proof.
  intro H. destruct (seir_step_finite_inv _ _ H)
    as (S & E & I & R & D & alfa & beta & eps & gamma & t & -> & _ & _ & _ & ->).
  unfold R_of, item, seir_update. cbn [nth].
  pose proof (clamp_nonneg R). pose proof (clamp_above R).
  assert (0 <= clamp gamma * clamp I)
    by (apply Qmult_le_0_compat; apply clamp_nonneg).
  split; lra.
Qed.

(** A run that ends in finite numbers went through finite numbers. *)
Lemma seir_run_first_step (steps : nat) (state out : list Q) :
  seir_run (S steps) (finite state) = Ok (finite out) ->
  exists mid,
    seir_step (finite state) = Ok (finite mid) /\
    seir_run steps (finite mid) = Ok (finite out).
Proof.
  cbn [seir_run]. intro H.
  destruct (seir_step (finite state)) as [state' |] eqn:Hstep; cbn in H;
    [| discriminate H].
  destruct (seir_step_finite_outcome _ Hstep) as [(mid & ->) | Hnan].
  - exists mid. split; [reflexivity | exact H].
  - exfalso.
    apply (seir_run_nan_not_finite steps state' out);
      [apply (seir_step_length _ Hstep) | exact Hnan | exact H].
Qed.

Lemma seir_run_deaths (steps : nat) :
  forall state out,
    seir_run steps (finite state) = Ok (finite out) ->
    D_of state <= D_of out.
Proof.
  induction steps as [| steps IH]; intros state out H.
  - cbn in H. injection H as H. apply finite_inj in H. subst out.
    apply Qle_refl.
  - destruct (@seir_run_first_step _ _ _ H) as (mid & Hstep & Hrun).
    apply Qle_trans with (D_of mid).
    + apply (@seir_step_deaths _ _ Hstep).
    + apply IH, Hrun.
Qed.

Lemma seir_run_add (n k : nat) :
  forall state,
    seir_run (n + k) state = Result.bind (seir_run n state) (seir_run k).
Proof.
  induction n as [| n IH]; intro state; cbn.
  - reflexivity.
  - destruct (seir_step state) as [state' |]; cbn; [apply IH | reflexivity].
Qed.

Lemma seir_live_step (state : list Q) :
  seir_live state ->
  exists out, seir_step (finite state) = Ok (finite out) /\ seir_live out.
Proof.
  intros (S & E & I & R & D & alfa & beta & eps & gamma & -> &
          HE & HI & HR & HN & Hb).
  destruct (documented_bounds_nonneg Hb) as (Ha0 & Hb0 & He0 & Hg0).
  pose proof (@seir_step_positive_total S E I R D alfa beta eps gamma) as H.
  rewrite (clamp_id HE), (clamp_id HI), (clamp_id HR), (clamp_id Ha0),
    (clamp_id Hb0), (clamp_id He0), (clamp_id Hg0) in H.
  destruct (H HN) as (t & Ht & HtN & Hstep).
  eexists. split; [exact Hstep |].
  unfold seir_update. do 9 eexists. split; [reflexivity |].
  pose proof (clamp_nonneg S) as HS.
  pose proof (clamp_above (clamp S - t)) as Hcl.
  destruct Hb as ((La & Ua) & (Lb & Ub) & (Le & Ue) & (Lg & Ug)).
  repeat split; try assumption; nra.
Qed.

Lemma seir_live_run (steps : nat) :
  forall state,
    seir_live state ->
    exists out, seir_run steps (finite state) = Ok (finite out).
Proof.
  induction steps as [| steps IH]; intros state Hlive; cbn.
  - eexists. reflexivity.
  - destruct (seir_live_step Hlive) as (state' & -> & Hlive'). cbn.
    apply IH, Hlive'.
Qed.

(** C6, counterexample: non-negative components, alfa = 1 and a positive
    alive total.  The infectious all die in the first step, the second step
    divides 0 by 0, and D, which is 1 after three steps, is [nan] after
    four. *)
Lemma seir_deaths_become_nan :
  compartments_nonneg 0 0 1 0 0 /\ 0 <= 1 /\ 0 < 0 + 0 + 1 + 0 /\
  exists out_3 out_4 D_3,
    seir_run 3 (finite state_all_die) = Ok out_3 /\
    seir_run 4 (finite state_all_die) = Ok out_4 /\
    np_item 4 out_3 = Fin D_3 /\ D_3 == 1 /\ np_item 4 out_4 = NaN.
Proof.
  split; [unfold compartments_nonneg; repeat split; lra |].
  split; [lra |]. split; [reflexivity |].
  do 3 eexists. split; [vm_compute; reflexivity |].
  split; [vm_compute; reflexivity |].
  split; [reflexivity |]. split; reflexivity.
Qed.

(** C6, amended: for non-negative compartments, alfa >= 0 and a positive
    alive total, [seir_step] returns a state whose D is non-negative and at
    least the input D.  Along a run of [seir_step], D is non-negative and
    never decreases from an earlier state to a later one as long as the
    states are finite numbers, and with the rates in their documented bounds
    they are, for every length of the run. *)
Theorem seir_deaths_monotone (S E I R D alfa beta eps gamma : Q) :
  compartments_nonneg S E I R D ->
  0 <= alfa ->
  0 < S + E + I + R ->
  let state := [S; E; I; R; D; alfa; beta; eps; gamma] in
  (exists out,
      seir_step (finite state) = Ok (finite out) /\
      0 <= D_of out /\ D <= D_of out) /\
  (forall (n m : nat) (out_n out_m : list Q),
      (n <= m)%nat ->
      seir_run n (finite state) = Ok (finite out_n) ->
      seir_run m (finite state) = Ok (finite out_m) ->
      0 <= D_of out_n /\ D_of out_n <= D_of out_m) /\
  (documented_bounds alfa beta eps gamma ->
   forall n : nat, exists out, seir_run n (finite state) = Ok (finite out)).
Proof.
  intros Hc Ha HN state.
  destruct Hc as (HS & HE & HI & HR & HD).
  split; [| split].
  - assert (HN' : 0 < clamp S + clamp E + clamp I + clamp R)
      by (rewrite !clamp_id by assumption; exact HN).
    destruct (@seir_step_positive_total S E I R D alfa beta eps gamma HN')
      as (t & _ & _ & Hstep).
    eexists. split; [exact Hstep |].
    apply (@seir_step_deaths state _ Hstep).
  - intros n m out_n out_m Hnm Hn Hm.
    replace m with (n + (m - n))%nat in Hm by lia.
    rewrite seir_run_add, Hn in Hm. cbn in Hm.
    split.
    + apply Qle_trans with (D_of state); [exact HD |].
      apply (@seir_run_deaths _ _ _ Hn).
    + apply (@seir_run_deaths _ _ _ Hm).
  - intros Hb n. apply seir_live_run.
    exists S, E, I, R, D, alfa, beta, eps, gamma.
    rewrite (clamp_id HS). repeat split; try assumption; apply Hb.
Qed.

Lemma seir_deaths_monotone_witness :
  (exists out,
      seir_step (finite seir_example) = Ok (finite out) /\
      0 <= D_of out /\ 2300 <= D_of out) /\
  (forall (n m : nat) (out_n out_m : list Q),
      (n <= m)%nat ->
      seir_run n (finite seir_example) = Ok (finite out_n) ->
      seir_run m (finite seir_example) = Ok (finite out_m) ->
      0 <= D_of out_n /\ D_of out_n <= D_of out_m) /\
  (documented_bounds (7 # 1000) 2 (2 # 10) (14 # 100) ->
   forall n : nat,
   exists out, seir_run n (finite seir_example) = Ok (finite out)).
Proof.
  apply (@seir_deaths_monotone
           39900000 60000 10000 80000 2300 (7 # 1000) 2 (2 # 10) (14 # 100)
           seir_example_compartments).
  - vm_compute. discriminate.
  - vm_compute. reflexivity.
Defined.

(** ** The Lorenz step, unfolded *)

Lemma lorenz_evol_step_unfold (x y z rho sigma beta : Q) :
  lorenz_evol_step (finite [x; y; z; rho; sigma; beta]) =
  Ok (finite [x + (1 # 100) * (Qabs sigma * (y - x));
              y + (1 # 100) * (x * (Qabs rho - z) - y);
              z + (1 # 100) * (x * y - Qabs beta * z);
              Qabs rho; Qabs sigma; Qabs beta]).
Proof. reflexivity. Qed.

(** ** C2 *)

(** C2, counterexample: with rho = -28 the step returns rho = 28. *)
Lemma lorenz_evol_step_changes_negative_rho :
  exists out,
    lorenz_evol_step (finite [1; 1; 1; -28; 10; 8 # 3]) = Ok (finite out) /\
    item 3 out == 28 /\ ~ item 3 out == -28.
Proof.
  eexists. split; [apply lorenz_evol_step_unfold |].
  split; [reflexivity | vm_compute; discriminate].
Qed.

(** C2, amended: the parameter components returned by [lorenz_evol_step] are
    the absolute values of the input rho, sigma, beta; each equals its input
    exactly when that input is non-negative. *)
Theorem lorenz_evol_step_parameters (x y z rho sigma beta : Q) :
  exists out,
    lorenz_evol_step (finite [x; y; z; rho; sigma; beta]) = Ok (finite out) /\
    length out = 6%nat /\
    item 3 out = Qabs rho /\ item 4 out = Qabs sigma /\
    item 5 out = Qabs beta /\
    (item 3 out == rho <-> 0 <= rho) /\
    (item 4 out == sigma <-> 0 <= sigma) /\
    (item 5 out == beta <-> 0 <= beta).
Proof.
  eexists. split; [apply lorenz_evol_step_unfold |].
  unfold item. cbn [nth length].
  repeat split; try apply Qabs_fixes_iff; apply Qabs_fixes_iff.
Qed.

(** ** C7 *)

(** C7: the dynamic components returned by [lorenz_evol_step] are the
    forward-Euler update with step 0.01 of the Lorenz-63 increments taken at
    the absolute values of the parameters. *)
Theorem lorenz_evol_step_euler (x y z rho sigma beta : Q) :
  exists out,
    lorenz_evol_step (finite [x; y; z; rho; sigma; beta]) = Ok (finite out) /\
    item 0 out == x + (1 # 100) * Qabs sigma * (y - x) /\
    item 1 out == y + (1 # 100) * (x * (Qabs rho - z) - y) /\
    item 2 out == z + (1 # 100) * (x * y - Qabs beta * z).
Proof.
  eexists. split; [apply lorenz_evol_step_unfold |].
  unfold item. cbn [nth].
  repeat split; ring.
Qed.

(** ** C10 *)

(** C10, counterexample: the Lorenz step does not keep the absolute value to
    the coefficients; for sigma = -10 the state it returns holds sigma = 10. *)
Lemma lorenz_evol_step_returns_absolute_sigma :
  exists out,
    lorenz_evol_step (finite [1; 2; 3; 28; -10; 8 # 3]) = Ok (finite out) /\
    skipn 3 out = [28; 10; 8 # 3] /\ skipn 3 out <> [28; -10; 8 # 3].
Proof.
  eexists. split; [apply lorenz_evol_step_unfold |].
  split; [reflexivity | cbn; discriminate].
Qed.

Lemma py_clamp_finite (x : Q) :
  py_clamp (Np (Fin x)) = (if negative x then Py 0 else Np (Fin x)) /\
  to_np (py_clamp (Np (Fin x))) = Fin (clamp x).
Proof.
  unfold py_clamp, py_max, py_gt, negative, clamp. cbn.
  destruct (Qle_bool 0 x); split; reflexivity.
Qed.

(** C10, amended: [seir_step] clamps every component of its input, rates
    included, with [max(x, 0)] before the update: a negative finite number
    becomes 0, any other is kept; while the clamped alive total is positive
    the outcome is that of the clamped input and the state returned is the
    update of the clamped numbers, and in every state returned the rates
    are the clamped rates.  The Lorenz step likewise returns the transformed
    parameters, their absolute values. *)
Theorem seir_step_clamps_every_component :
  (forall x,
      to_np (py_clamp (Np (Fin x))) = Fin (clamp x) /\
      (x < 0 -> clamp x = 0) /\ (0 <= x -> clamp x = x)) /\
  (forall S E I R D alfa beta eps gamma,
      let N := clamp S + clamp E + clamp I + clamp R in
      0 < N ->
      seir_step (finite [S; E; I; R; D; alfa; beta; eps; gamma])
      = seir_step (finite (map clamp
                               [S; E; I; R; D; alfa; beta; eps; gamma])) /\
      seir_step (finite [S; E; I; R; D; alfa; beta; eps; gamma])
      = Ok (finite
              [clamp S - clamp S * clamp beta * clamp I / N;
               clamp E + clamp S * clamp beta * clamp I / N
               - clamp eps * clamp E;
               clamp I + clamp eps * clamp E
               - (clamp alfa + clamp gamma) * clamp I;
               clamp R + clamp gamma * clamp I;
               clamp D + clamp alfa * clamp I;
               clamp alfa; clamp beta; clamp eps; clamp gamma])) /\
  (forall S E I R D alfa beta eps gamma out,
      seir_step (finite [S; E; I; R; D; alfa; beta; eps; gamma]) = Ok out ->
      skipn 5 out = finite [clamp alfa; clamp beta; clamp eps; clamp gamma]) /\
  (forall x y z rho sigma beta,
      exists x' y' z',
        lorenz_evol_step (finite [x; y; z; rho; sigma; beta]) =
        Ok (finite [x'; y'; z'; Qabs rho; Qabs sigma; Qabs beta])).
Proof.
  split; [| split; [| split]].
  - intro x. split; [apply py_clamp_finite |].
    split; [apply clamp_neg | apply clamp_id].
  - intros S E I R D alfa beta eps gamma N HN.
    assert (Hstep : forall S' E' I' R' D' a' b' e' g',
               0 < clamp S' + clamp E' + clamp I' + clamp R' ->
               seir_step (finite [S'; E'; I'; R'; D'; a'; b'; e'; g'])
               = Ok (finite (seir_update
                               (clamp S') (clamp E') (clamp I') (clamp R')
                               (clamp D') (clamp a') (clamp b') (clamp e')
                               (clamp g')
                               (clamp S' * clamp b' * clamp I' /
                                (clamp S' + clamp E' + clamp I' + clamp R'))))).
    { intros S' E' I' R' D' a' b' e' g' HN'.
      cbn [finite map].
      rewrite seir_step_unfold, !np_negative_Fin, !np_clamp_Fin.
      assert (Hsome : negative S' && negative E' && negative I'
                      && negative R' && negative b' = false).
      { destruct (negative S') eqn:nS; [| reflexivity].
        destruct (negative E') eqn:nE; [| reflexivity].
        destruct (negative I') eqn:nI; [| reflexivity].
        destruct (negative R') eqn:nR; [| reflexivity].
        exfalso.
        rewrite (negative_clamp _ nS), (negative_clamp _ nE),
          (negative_clamp _ nI), (negative_clamp _ nR) in HN'.
        discriminate HN'. }
      rewrite Hsome. unfold np_seir_update. cbn [np_add np_mul].
      unfold np_div.
      destruct (Qeq_bool (clamp S' + clamp E' + clamp I' + clamp R') 0)
        eqn:HN0; [| reflexivity].
      exfalso. apply Qeq_bool_iff in HN0. rewrite HN0 in HN'.
      discriminate HN'. }
    split.
    + cbn [map]. rewrite (Hstep S E I R D alfa beta eps gamma HN).
      rewrite Hstep; rewrite !clamp_idem; [reflexivity | exact HN].
    + exact (Hstep S E I R D alfa beta eps gamma HN).
  - intros S E I R D alfa beta eps gamma out H.
    destruct (clamped_total_cases S E I R) as [HN | HN].
    + destruct (@seir_step_positive_total S E I R D alfa beta eps gamma HN)
        as (t & _ & _ & Hstep).
      rewrite Hstep in H. injection H as <-. reflexivity.
    + rewrite (@seir_step_zero_total S E I R D alfa beta eps gamma HN) in H.
      destruct (_ && _); [discriminate H |].
      injection H as <-. reflexivity.
  - intros x y z rho sigma beta. do 3 eexists.
    apply lorenz_evol_step_unfold.
Qed.

(** ** C8 and C9: the observation generator *)

Section Generator.

Variables G X Obs : Type.

Lemma prepare_obs_loop_pure (H : X -> Obs) (M : X -> X) (remaining : nat) :
  forall (state : X) (observations : list Obs) (g : G),
    prepare_obs_loop (pure_fn H) (pure_fn M) remaining state observations g =
    (Ok (observations ++
         map (fun i => H (Nat.iter i M state)) (seq 0 remaining)), g).
Proof.
  induction remaining as [| remaining IH]; intros state observations g.
  - cbn. rewrite app_nil_r. reflexivity.
  - cbn [prepare_obs_loop]. unfold py_bind, pure_fn, py_ret at 1 2.
    rewrite IH. rewrite <- app_assoc. cbn [seq map app Nat.iter nat_rect].
    rewrite <- seq_shift, map_map.
    do 4 f_equal. apply map_ext. intro i.
    change (H (Nat.iter i M (M state)) = H (Nat.iter (S i) M state)).
    f_equal. symmetry. apply Nat.iter_succ_r.
Qed.

Lemma prepare_obs_loop_reads_only
      (H : X -> py G Obs) (M : X -> py G X) (remaining : nat) :
  reads_only H -> reads_only M ->
  forall (state : X) (observations : list Obs) (g : G),
    snd (prepare_obs_loop H M remaining state observations g) = g.
Proof.
  intros HH HM.
  induction remaining as [| remaining IH]; intros state observations g.
  - reflexivity.
  - cbn [prepare_obs_loop]. unfold py_bind.
    specialize (HH state g). destruct (H state g) as [[o | e] g1].
    + cbn in HH. subst g1.
      specialize (HM state g). destruct (M state g) as [[state' | e] g2].
      * cbn in HM. subst g2. apply IH.
      * exact HM.
    + exact HH.
Qed.

End Generator.

Lemma partial_fn_reads_only (G A B : Type) (f : A -> result B) :
  reads_only (G := G) (partial_fn f).
Proof. intros a g. reflexivity. Qed.

Lemma pure_fn_reads_only (G A B : Type) (f : A -> B) :
  reads_only (G := G) (pure_fn f).
Proof. intros a g. reflexivity. Qed.

(** C8: for an observation operator H and a transition function M that are
    functions of their argument and a count N >= 0, [prepare_obs] returns N
    observations, and the i-th (from 0) is H of the i-fold iterate of M on
    the starting state. *)
Theorem prepare_obs_observes_then_advances
        (G X Obs : Type) (x0 : X) (H : X -> Obs) (M : X -> X) (N : Z) (g : G) :
  (0 <= N)%Z ->
  exists observations,
    prepare_obs x0 (pure_fn H) (pure_fn M) N g = (Ok observations, g) /\
    Z.of_nat (length observations) = N /\
    forall i : nat,
      (i < length observations)%nat ->
      nth_error observations i = Some (H (Nat.iter i M x0)).
Proof.
  intro HN. unfold prepare_obs. rewrite prepare_obs_loop_pure. cbn [app].
  eexists. split; [reflexivity |].
  rewrite length_map, length_seq. split; [apply Z2Nat.id, HN |].
  intros i Hi. rewrite nth_error_map, nth_error_seq.
  apply Nat.ltb_lt in Hi. rewrite Hi. reflexivity.
Qed.

Lemma prepare_obs_observes_then_advances_witness :
  exists observations,
    prepare_obs (G := unit) 8 (pure_fn (fun x => x + 1))
                (pure_fn (fun x => x * (1 # 2))) 3 tt
    = (Ok observations, tt) /\
    Z.of_nat (length observations) = 3%Z /\
    forall i : nat,
      (i < length observations)%nat ->
      nth_error observations i =
      Some (Nat.iter i (fun x => x * (1 # 2)) 8 + 1).
Proof.
  apply (@prepare_obs_observes_then_advances
           unit Q Q 8 (fun x => x + 1) (fun x => x * (1 # 2)) 3%Z tt).
  vm_compute. discriminate.
Defined.

(** The transition function is called in every iteration, the last one
    included: when it raises there, no sequence is returned, although the
    observations asked for had all been taken. *)
Remark prepare_obs_last_advance_raises :
  fst (prepare_obs (G := unit)
                   (finite [-1; -1; -1; -1; 0; 1 # 128; -1; 1 # 8; 1 # 8])
                   (pure_fn (np_item 4)) (partial_fn seir_step) 1 tt)
  = Raise ZeroDivisionError.
Proof. vm_compute. reflexivity. Qed.

(** A transition function that writes the store gives two successive runs
    different sequences: the callables have to be pure, as the spec's
    contracts for them say. *)
Remark prepare_obs_store_writing_callable :
  let H : Z -> py Z Z := pure_fn (fun x => x) in
  let M : Z -> py Z Z := fun x g => (Ok (x + g)%Z, (g + 1)%Z) in
  let first := prepare_obs 0%Z H M 3 0%Z in
  let second := prepare_obs 0%Z H M 3 (snd first) in
  fst first = Ok [0; 0; 1]%Z /\ fst second = Ok [0; 3; 7]%Z.
Proof. split; reflexivity. Qed.

(** C9: with an observation operator and a transition function that leave
    the store as they find it, a second run of [prepare_obs] on the same
    arguments, started where the first run ended, has the outcome of the
    first: the same observation sequence (or the same exception). *)
Theorem prepare_obs_deterministic
        (G X Obs : Type) (x0 : X) (H : X -> py G Obs) (M : X -> py G X)
        (N : Z) (g : G) :
  reads_only H -> reads_only M ->
  let first := prepare_obs x0 H M N g in
  let second := prepare_obs x0 H M N (snd first) in
  fst second = fst first /\ snd second = snd first.
Proof.
  intros HH HM first second.
  assert (Hg : snd first = g).
  { unfold first, prepare_obs. apply prepare_obs_loop_reads_only; assumption. }
  unfold second. rewrite Hg. split; [reflexivity | exact Hg].
Qed.

Lemma prepare_obs_deterministic_witness :
  let first :=
    prepare_obs (G := unit) (finite seir_example) (pure_fn (np_item 4))
                (partial_fn seir_step) 2 tt in
  let second :=
    prepare_obs (finite seir_example) (pure_fn (np_item 4))
                (partial_fn seir_step) 2 (snd first) in
  fst second = fst first /\ snd second = snd first.
Proof.
  apply (@prepare_obs_deterministic
           unit (list np_float) np_float (finite seir_example)
           (pure_fn (np_item 4)) (partial_fn seir_step) 2%Z tt).
  - apply pure_fn_reads_only.
  - apply partial_fn_reads_only.
Defined.

(** * Further properties of the transition functions and their callers *)

(** ** The shape of the state vector *)

(** [seir_step] raises [ValueError] exactly on a vector that does not have
    nine items, and a state it returns has nine items. *)
Theorem seir_step_value_error_iff (state : list np_float) :
  (seir_step state = Raise ValueError <-> length state <> 9%nat) /\
  (forall out, seir_step state = Ok out ->
               length state = 9%nat /\ length out = 9%nat).
Proof.
  do 10 (destruct state as [| ? state];
         [try (split; [split; [intros _; cbn; discriminate
                              | intros _; reflexivity]
                      | intros out K; discriminate K]) |]).
  - rewrite seir_step_unfold.
    destruct (_ && _).
    + split; [split; [intro K; discriminate K
                     | intro K; exfalso; apply K; reflexivity]
             | intros out K; discriminate K].
    + split; [split; [intro K; discriminate K
                     | intro K; exfalso; apply K; reflexivity] |].
      intros out K. injection K as <-. split; reflexivity.
  - split; [split; [intros _; cbn; lia | intros _; reflexivity]
           | intros out K; discriminate K].
Qed.

(** ** What one SEIR step keeps *)

(** Whenever one of S, E, I, R is positive after clamping, the step returns a
    state in which the living and the dead together are as many as in the
    clamped input, so at least as many as in the input: what leaves S, E, I,
    R arrives in another compartment, and clamping a negative compartment
    adds to the total. *)
Theorem seir_step_conserves_population (S E I R D alfa beta eps gamma : Q) :
  0 < clamp S + clamp E + clamp I + clamp R ->
  exists out,
    seir_step (finite [S; E; I; R; D; alfa; beta; eps; gamma])
    = Ok (finite out) /\
    alive out + D_of out
    == clamp S + clamp E + clamp I + clamp R + clamp D /\
    S + E + I + R + D <= alive out + D_of out.
Proof.
  intro HN.
  destruct (@seir_step_positive_total S E I R D alfa beta eps gamma HN)
    as (t & _ & _ & Hstep).
  eexists. split; [exact Hstep |].
  unfold alive, S_of, E_of, I_of, R_of, D_of, item, seir_update. cbn [nth].
  assert (Heq : clamp S - t + (clamp E + t - clamp eps * clamp E) +
                (clamp I + clamp eps * clamp E
                 - (clamp alfa + clamp gamma) * clamp I) +
                (clamp R + clamp gamma * clamp I) +
                (clamp D + clamp alfa * clamp I)
                == clamp S + clamp E + clamp I + clamp R + clamp D) by ring.
  split; [exact Heq |]. rewrite Heq.
  pose proof (clamp_above S). pose proof (clamp_above E).
  pose proof (clamp_above I). pose proof (clamp_above R).
  pose proof (clamp_above D). lra.
Qed.

Lemma seir_step_conserves_population_witness :
  exists out,
    seir_step (finite state_S_negative) = Ok (finite out) /\
    alive out + D_of out == clamp 1 + clamp 0 + clamp 1 + clamp 0 + clamp 0 /\
    1 + 0 + 1 + 0 + 0 <= alive out + D_of out.
Proof.
  apply (@seir_step_conserves_population
           1 0 1 0 0 (1 # 128) 7 (1 # 8) (1 # 8)).
  vm_compute. reflexivity.
Defined.

(** ** What a run of SEIR steps keeps *)

Lemma seir_reach_step (S0 R0 D0 alfa beta eps gamma : Q) (state : list Q) :
  documented_bounds alfa beta eps gamma ->
  seir_reach S0 R0 D0 alfa beta eps gamma state ->
  exists out,
    seir_step (finite state) = Ok (finite out) /\
    seir_reach S0 R0 D0 alfa beta eps gamma out.
Proof.
  intros Hb (S & E & I & R & D & -> & HE & HI & HR & HD & HN & HS0 & HR0 & HD0).
  destruct (documented_bounds_nonneg Hb) as (Ha0 & Hb0 & He0 & Hg0).
  pose proof (@seir_step_positive_total S E I R D alfa beta eps gamma) as H.
  rewrite (clamp_id HE), (clamp_id HI), (clamp_id HR), (clamp_id HD),
    (clamp_id Ha0), (clamp_id Hb0), (clamp_id He0), (clamp_id Hg0) in H.
  destruct (H HN) as (t & Ht & HtN & Hstep).
  eexists. split; [exact Hstep |].
  unfold seir_update. do 5 eexists. split; [reflexivity |].
  pose proof (clamp_nonneg S) as HS.
  pose proof (clamp_above (clamp S - t)) as Hcl.
  assert (Hcl' : clamp (clamp S - t) <= clamp S).
  { destruct (clamp_cases (clamp S - t)) as [[_ ->] | [_ ->]]; lra. }
  destruct Hb as ((La & Ua) & (Lb & Ub) & (Le & Ue) & (Lg & Ug)).
  repeat split; try assumption; nra.
Qed.

Lemma seir_reach_run (S0 R0 D0 alfa beta eps gamma : Q) (steps : nat) :
  documented_bounds alfa beta eps gamma ->
  forall state,
    seir_reach S0 R0 D0 alfa beta eps gamma state ->
    exists out,
      seir_run steps (finite state) = Ok (finite out) /\
      seir_reach S0 R0 D0 alfa beta eps gamma out.
Proof.
  intro Hb. induction steps as [| steps IH]; intros state Hreach; cbn.
  - exists state. split; [reflexivity | exact Hreach].
  - destruct (seir_reach_step Hb Hreach) as (state' & -> & Hreach'). cbn.
    apply IH, Hreach'.
Qed.

(** From non-negative compartments with a positive alive total and rates in
    their documented bounds, a run of any length returns a state of nine
    finite numbers that carries the four rates unchanged, in which E, I, R
    and D are non-negative, R and D are at least their initial values and S
    is at most its initial value. *)
Theorem seir_run_invariants (S E I R D alfa beta eps gamma : Q) (steps : nat) :
  compartments_nonneg S E I R D ->
  documented_bounds alfa beta eps gamma ->
  0 < S + E + I + R ->
  exists out,
    seir_run steps (finite [S; E; I; R; D; alfa; beta; eps; gamma])
    = Ok (finite out) /\
    length out = 9%nat /\
    skipn 5 out = [alfa; beta; eps; gamma] /\
    0 <= E_of out /\ 0 <= I_of out /\ 0 <= R_of out /\ 0 <= D_of out /\
    S_of out <= S /\ R <= R_of out /\ D <= D_of out.
Proof.
  intros (HS & HE & HI & HR & HD) Hb HN.
  destruct (@seir_reach_run S R D alfa beta eps gamma steps Hb
              [S; E; I; R; D; alfa; beta; eps; gamma])
    as (out & Hrun & S' & E' & I' & R' & D' & -> &
        HE' & HI' & HR' & HD' & _ & HS0 & HR0 & HD0).
  { exists S, E, I, R, D. rewrite (clamp_id HS).
    repeat split; try assumption; apply Qle_refl. }
  exists [S'; E'; I'; R'; D'; alfa; beta; eps; gamma].
  split; [exact Hrun |].
  unfold S_of, E_of, I_of, R_of, D_of, item. cbn [nth length skipn].
  pose proof (clamp_above S').
  repeat split; try assumption. lra.
Qed.

Lemma seir_run_invariants_witness :
  exists out,
    seir_run 200 (finite seir_example) = Ok (finite out) /\
    length out = 9%nat /\
    skipn 5 out = [7 # 1000; 2; 2 # 10; 14 # 100] /\
    0 <= E_of out /\ 0 <= I_of out /\ 0 <= R_of out /\ 0 <= D_of out /\
    S_of out <= 39900000 /\ 80000 <= R_of out /\ 2300 <= D_of out.
Proof.
  apply (@seir_run_invariants
           39900000 60000 10000 80000 2300 (7 # 1000) 2 (2 # 10) (14 # 100)
           200 seir_example_compartments seir_example_bounds).
  reflexivity.
Defined.

Lemma seir_closed_step (T alfa beta eps gamma : Q) (state : list Q) :
  documented_bounds alfa beta eps gamma -> beta <= 1 ->
  seir_closed T alfa beta eps gamma state ->
  exists out,
    seir_step (finite state) = Ok (finite out) /\
    seir_closed T alfa beta eps gamma out /\
    alive out <= alive state.
Proof.
  intros Hb Hb1
         (S & E & I & R & D & -> & HS & HE & HI & HR & HD & HN & HT).
  destruct (documented_bounds_nonneg Hb) as (Ha0 & Hb0 & He0 & Hg0).
  assert (Hc : compartments_nonneg S E I R D) by (repeat split; assumption).
  destruct (seir_step_valid Hc Ha0 Hb0 He0 Hg0 HN)
    as (t & Ht & HtN & Hstep).
  eexists. split; [exact Hstep |].
  destruct Hb as ((La & Ua) & (Lb & Ub) & (Le & Ue) & (Lg & Ug)).
  assert (HtS : t <= S).
  { assert (HbI : beta * I <= S + E + I + R) by nra.
    assert (HSb : S * (beta * I) <= S * (S + E + I + R)) by nra.
    destruct (Qlt_le_dec S t) as [Hlt | Hle]; [| exact Hle].
    exfalso.
    assert (0 < (t - S) * (S + E + I + R))
      by (apply Qmult_lt_0_compat; lra).
    nra. }
  split.
  - unfold seir_update. do 5 eexists. split; [reflexivity |].
    repeat split; nra.
  - unfold alive, S_of, E_of, I_of, R_of, item, seir_update. cbn [nth]. nra.
Qed.

Lemma seir_closed_run (T alfa beta eps gamma : Q) (steps : nat) :
  documented_bounds alfa beta eps gamma -> beta <= 1 ->
  forall state,
    seir_closed T alfa beta eps gamma state ->
    exists out,
      seir_run steps (finite state) = Ok (finite out) /\
      seir_closed T alfa beta eps gamma out /\
      alive out <= alive state.
Proof.
  intros Hb Hb1. induction steps as [| steps IH]; intros state Hc; cbn.
  - exists state. split; [reflexivity |]. split; [exact Hc | apply Qle_refl].
  - destruct (seir_closed_step Hb Hb1 Hc) as (state' & -> & Hc' & Hle). cbn.
    destruct (IH state' Hc') as (out & Hrun & Hout & Hle').
    exists out. split; [exact Hrun |]. split; [exact Hout |].
    apply Qle_trans with (alive state'); assumption.
Qed.

(** With rates in their documented bounds and a transmission rate of at most
    1, a run from non-negative compartments with a positive alive total
    keeps every compartment non-negative, keeps the total of the living and
    the dead, and the alive population of a later state is at most that of
    an earlier one. *)
Theorem seir_run_closed_population
        (S E I R D alfa beta eps gamma : Q) (n m : nat) :
  compartments_nonneg S E I R D ->
  documented_bounds alfa beta eps gamma ->
  beta <= 1 ->
  0 < S + E + I + R ->
  (n <= m)%nat ->
  exists out_n out_m,
    seir_run n (finite [S; E; I; R; D; alfa; beta; eps; gamma])
    = Ok (finite out_n) /\
    seir_run m (finite [S; E; I; R; D; alfa; beta; eps; gamma])
    = Ok (finite out_m) /\
    Forall (Qle 0) out_m /\
    alive out_m + D_of out_m == S + E + I + R + D /\
    alive out_m <= alive out_n /\ alive out_n <= S + E + I + R.
Proof.
  intros (HS & HE & HI & HR & HD) Hb Hb1 HN Hnm.
  set (state := [S; E; I; R; D; alfa; beta; eps; gamma]).
  assert (Hc : seir_closed (S + E + I + R + D) alfa beta eps gamma state).
  { exists S, E, I, R, D. repeat split; try assumption. }
  destruct (seir_closed_run n Hb Hb1 Hc) as (out_n & Hn & Hcn & Hlen).
  destruct (seir_closed_run (m - n) Hb Hb1 Hcn) as (out_m & Hm & Hcm & Hlem).
  exists out_n, out_m. split; [exact Hn |]. split.
  { replace m with (n + (m - n))%nat by lia.
    rewrite seir_run_add, Hn. exact Hm. }
  destruct Hcm as (S' & E' & I' & R' & D' & -> &
                   HS' & HE' & HI' & HR' & HD' & HN' & HT').
  destruct (documented_bounds_nonneg Hb) as (Ha0 & Hb0 & He0 & Hg0).
  split; [repeat constructor; assumption |].
  split; [exact HT' |].
  split; [exact Hlem | exact Hlen].
Qed.

Lemma seir_run_closed_population_witness :
  exists out_n out_m,
    seir_run 1 (finite [39900000; 60000; 10000; 80000; 2300;
                        7 # 1000; 1 # 2; 2 # 10; 14 # 100])
    = Ok (finite out_n) /\
    seir_run 3 (finite [39900000; 60000; 10000; 80000; 2300;
                        7 # 1000; 1 # 2; 2 # 10; 14 # 100])
    = Ok (finite out_m) /\
    Forall (Qle 0) out_m /\
    alive out_m + D_of out_m == 39900000 + 60000 + 10000 + 80000 + 2300 /\
    alive out_m <= alive out_n /\
    alive out_n <= 39900000 + 60000 + 10000 + 80000.
Proof.
  apply (@seir_run_closed_population
           39900000 60000 10000 80000 2300 (7 # 1000) (1 # 2) (2 # 10)
           (14 # 100) 1 3 seir_example_compartments).
  - unfold documented_bounds. repeat split; vm_compute; discriminate.
  - vm_compute. discriminate.
  - reflexivity.
  - repeat constructor.
Defined.

(** With a transmission rate above 1 this fails: S goes negative in the first
    step, is clamped in the second, and the alive population goes up from
    255/128 to 73489/16384. *)
Remark seir_run_alive_can_increase :
  exists out_1 out_2,
    seir_run 1 (finite state_S_negative) = Ok (finite out_1) /\
    seir_run 2 (finite state_S_negative) = Ok (finite out_2) /\
    alive out_1 == 255 # 128 /\ alive out_2 == 73489 # 16384 /\
    alive out_1 < alive out_2.
Proof.
  pose (numbers := fun r : result (list np_float) =>
                     match r with
                     | Ok l => map (fun x => match x with
                                             | Fin q => q
                                             | _ => 0
                                             end) l
                     | Raise _ => []
                     end).
  exists (numbers (seir_run 1 (finite state_S_negative))),
         (numbers (seir_run 2 (finite state_S_negative))).
  split; [vm_compute; reflexivity |].
  split; [vm_compute; reflexivity |].
  repeat split; vm_compute; reflexivity.
Qed.

Lemma seir_disease_free_step (S0 R0 D0 alfa beta eps gamma : Q)
      (state : list Q) :
  0 <= S0 -> 0 <= R0 -> 0 <= D0 -> 0 < S0 + R0 ->
  0 <= alfa -> 0 <= beta -> 0 <= eps -> 0 <= gamma ->
  seir_disease_free S0 R0 D0 alfa beta eps gamma state ->
  exists out,
    seir_step (finite state) = Ok (finite out) /\
    seir_disease_free S0 R0 D0 alfa beta eps gamma out.
Proof.
  intros HS0 HR0 HD0 HN0 Ha Hb He Hg
         (S & E & I & R & D & -> & HS & HE & HI & HR & HD).
  assert (Hc : compartments_nonneg S E I R D).
  { unfold compartments_nonneg. rewrite HS, HE, HI, HR, HD.
    repeat split; try assumption; apply Qle_refl. }
  assert (HN : 0 < S + E + I + R) by (rewrite HS, HE, HI, HR; lra).
  destruct (seir_step_valid Hc Ha Hb He Hg HN)
    as (t & Ht & HtN & Hstep).
  eexists. split; [exact Hstep |].
  assert (Ht0 : t == 0).
  { rewrite HI in HtN. rewrite Qmult_0_r in HtN.
    apply Qmult_integral in HtN. destruct HtN as [K | K]; [exact K |].
    exfalso. lra. }
  unfold seir_update. do 5 eexists. split; [reflexivity |].
  rewrite Ht0, HE, HI. repeat split; try (rewrite ?HS, ?HR, ?HD; ring).
Qed.

(** Without exposed and infectious individuals nothing changes: from
    [S, 0, 0, R, D] with non-negative entries, a positive S + R and
    non-negative rates, a run of any length returns a state equal to the
    initial one, component by component. *)
Theorem seir_run_disease_free (S R D alfa beta eps gamma : Q) (steps : nat) :
  0 <= S -> 0 <= R -> 0 <= D -> 0 < S + R ->
  0 <= alfa -> 0 <= beta -> 0 <= eps -> 0 <= gamma ->
  exists out,
    seir_run steps (finite [S; 0; 0; R; D; alfa; beta; eps; gamma])
    = Ok (finite out) /\
    Forall2 Qeq out [S; 0; 0; R; D; alfa; beta; eps; gamma].
Proof.
  intros HS HR HD HN Ha Hb He Hg.
  assert (Hrun : forall state,
             seir_disease_free S R D alfa beta eps gamma state ->
             exists out,
               seir_run steps (finite state) = Ok (finite out) /\
               seir_disease_free S R D alfa beta eps gamma out).
  { induction steps as [| steps IH]; intros state Hfree; cbn.
    - exists state. split; [reflexivity | exact Hfree].
    - destruct (seir_disease_free_step HS HR HD HN Ha Hb He Hg Hfree)
        as (state' & -> & Hfree'). cbn. apply IH, Hfree'. }
  destruct (Hrun [S; 0; 0; R; D; alfa; beta; eps; gamma])
    as (out & Hout & S' & E' & I' & R' & D' & -> & HS' & HE' & HI' & HR' & HD').
  { exists S, 0, 0, R, D. repeat split; reflexivity. }
  eexists. split; [exact Hout |].
  repeat constructor; try assumption; reflexivity.
Qed.

Lemma seir_run_disease_free_witness :
  exists out,
    seir_run 200 (finite [40000000; 0; 0; 0; 0;
                          7 # 1000; 2; 2 # 10; 14 # 100])
    = Ok (finite out) /\
    Forall2 Qeq out [40000000; 0; 0; 0; 0; 7 # 1000; 2; 2 # 10; 14 # 100].
Proof.
  apply (@seir_run_disease_free
           40000000 0 0 (7 # 1000) 2 (2 # 10) (14 # 100) 200);
    vm_compute; first [reflexivity | discriminate].
Defined.

(** ** [generate_outputs_seir] *)

Lemma np_item_finite (i : nat) (l : list Q) :
  (i < length l)%nat -> np_item i (finite l) = Fin (item i l).
Proof.
  intro Hi. unfold np_item, item, finite.
  rewrite (nth_indep _ NaN (Fin 0)) by (rewrite length_map; exact Hi).
  apply map_nth.
Qed.

(** The running maximum after one comparison. *)
Lemma running_max_cases (x m : Q) :
  let m' := if negb (Qle_bool x m) then x else m in
  m <= m' /\ x <= m' /\ (m' = m \/ m' = x).
Proof.
  cbv zeta. destruct (Qle_bool x m) eqn:E; cbn [negb].
  - apply Qle_bool_iff in E. repeat split; [lra | lra | left; reflexivity].
  - assert (m < x).
    { apply Qnot_le_lt. intro K. apply Qle_bool_iff in K. congruence. }
    repeat split; [lra | lra | right; reflexivity].
Qed.

(** An exception of the run is an exception of the inner loop. *)
Lemma seir_peak_loop_raises (steps : nat) :
  forall (state : list np_float) (mx : num) (e : exn),
    seir_run steps state = Raise e ->
    seir_peak_loop steps state mx = Raise e.
Proof.
  induction steps as [| steps IH]; intros state mx e H; cbn in H.
  - discriminate H.
  - cbn [seir_peak_loop].
    destruct (seir_step state) as [state' |]; cbn in *;
      [apply IH, H | congruence].
Qed.

(** On finite numbers the inner loop follows [seir_run] and keeps the
    largest I seen after a step. *)
Lemma seir_peak_loop_run (steps : nat) :
  forall (state out : list Q) (mx : num) (m : Q),
    to_np mx = Fin m ->
    seir_run steps (finite state) = Ok (finite out) ->
    exists mx' m',
      seir_peak_loop steps (finite state) mx = Ok (finite out, mx') /\
      to_np mx' = Fin m' /\
      m <= m' /\
      (forall k s, (1 <= k <= steps)%nat ->
                   seir_run k (finite state) = Ok (finite s) ->
                   I_of s <= m') /\
      (m' = m \/
       exists k s, (1 <= k <= steps)%nat /\
                   seir_run k (finite state) = Ok (finite s) /\
                   m' = I_of s).
Proof.
  induction steps as [| steps IH]; intros state out mx m Hm Hrun.
  - cbn in Hrun |- *. injection Hrun as Hrun.
    exists mx, m. rewrite Hrun.
    split; [reflexivity |]. split; [exact Hm |]. split; [apply Qle_refl |].
    split; [intros k s Hk; lia | left; reflexivity].
  - destruct (@seir_run_first_step _ _ _ Hrun) as (mid & Hstep & Hrest).
    assert (Hlen : length mid = 9%nat).
    { rewrite <- finite_length. apply (seir_step_length _ Hstep). }
    cbn [seir_peak_loop]. rewrite Hstep. cbn [Result.bind].
    rewrite np_item_finite by (rewrite Hlen; lia).
    unfold py_gt. rewrite Hm. cbn [to_np np_gt].
    pose proof (running_max_cases (item 2 mid) m) as Hmax.
    cbv zeta in Hmax. destruct Hmax as (Hle & HI & Hcase).
    set (mx1 := if negb (Qle_bool (item 2 mid) m)
                then Np (Fin (item 2 mid)) else mx).
    set (m1 := if negb (Qle_bool (item 2 mid) m) then item 2 mid else m) in *.
    assert (Hm1 : to_np mx1 = Fin m1).
    { unfold mx1, m1. destruct (negb _); [reflexivity | exact Hm]. }
    destruct (IH mid out mx1 m1 Hm1 Hrest)
      as (mx' & m' & Hloop & Hm' & Hle' & Hall & Hatt).
    exists mx', m'. split; [exact Hloop |]. split; [exact Hm' |].
    split; [lra |]. split.
    + intros k s Hk Hk_run. destruct k as [| k]; [lia |].
      destruct (@seir_run_first_step _ _ _ Hk_run) as (mid' & Hstep' & Hrest').
      rewrite Hstep in Hstep'. injection Hstep' as Hmid.
      apply finite_inj in Hmid. subst mid'.
      destruct k as [| k].
      * cbn in Hrest'. injection Hrest' as Hs. apply finite_inj in Hs.
        subst s. unfold I_of. lra.
      * apply (Hall (S k) s); [lia | exact Hrest'].
    + destruct Hatt as [-> | (k & s & Hk & Hk_run & ->)].
      * destruct Hcase as [-> | ->]; [left; reflexivity |].
        right. exists 1%nat, mid. split; [lia |].
        split; [| reflexivity].
        cbn [seir_run]. rewrite Hstep. reflexivity.
      * right. exists (S k), s. split; [lia |]. split; [| reflexivity].
        cbn [seir_run]. rewrite Hstep. exact Hk_run.
Qed.

(** A positive R keeps the run going within the finite numbers, whatever
    the rates. *)
Lemma seir_run_recovered (steps : nat) :
  forall state,
    length state = 9%nat -> 0 < R_of state ->
    exists out,
      seir_run steps (finite state) = Ok (finite out) /\
      length out = 9%nat /\
      R_of state <= R_of out /\ D_of state <= D_of out.
Proof.
  induction steps as [| steps IH]; intros state Hlen HR.
  - exists state. cbn. repeat split; [exact Hlen | apply Qle_refl ..].
  - assert (Hstep : exists state',
               seir_step (finite state) = Ok (finite state')).
    { do 10 (destruct state as [| ? state]; try discriminate Hlen).
      match goal with
      | |- context [seir_step (finite [?S; ?E; ?I; ?R; ?D; ?a; ?b; ?e; ?g])] =>
          destruct (@seir_step_positive_total S E I R D a b e g)
            as (t & _ & _ & ->);
          [| eexists; reflexivity];
          pose proof (clamp_nonneg S); pose proof (clamp_nonneg E);
          pose proof (clamp_nonneg I); pose proof (clamp_above R)
      end.
      unfold R_of, item in HR. cbn [nth] in HR. lra. }
    destruct Hstep as (state' & Hstep).
    destruct (@seir_step_recovered _ _ Hstep) as (_ & HR').
    destruct (@seir_step_deaths _ _ Hstep) as (_ & HD').
    assert (Hlen' : length state' = 9%nat).
    { rewrite <- finite_length. apply (seir_step_length _ Hstep). }
    destruct (IH state' Hlen') as (out & Hrun & Hlo & HRo & HDo); [lra |].
    exists out. cbn [seir_run]. rewrite Hstep. cbn [Result.bind].
    repeat split; [exact Hrun | exact Hlo | lra | lra].
Qed.

Lemma finite_app (l l' : list Q) : finite l ++ finite l' = finite (l ++ l').
Proof. unfold finite. symmetry. apply map_app. Qed.

(** For any four finite rates, in their bounds or not, the row returns: R
    starts at 80000 and never goes down, so the alive total stays positive
    through the 200 steps.  The first value is D after the 200 steps and is
    at least the initial 2300; the second is at least 0 and at least the I
    of each of the 200 states after a step, and it is 0 or the I of one of
    them.  The I of the initial state is not looked at. *)
Theorem seir_outputs_final_and_peak (alfa beta eps gamma : Q) :
  let state := initial_state ++ [alfa; beta; eps; gamma] in
  exists out peak,
    seir_run 200 (finite state) = Ok (finite out) /\
    seir_outputs (finite [alfa; beta; eps; gamma])
    = Ok (Fin (D_of out), Fin peak) /\
    2300 <= D_of out /\ 0 <= peak /\
    (forall k s, (1 <= k <= 200)%nat ->
                 seir_run k (finite state) = Ok (finite s) ->
                 I_of s <= peak) /\
    (peak = 0 \/
     exists k s, (1 <= k <= 200)%nat /\
                 seir_run k (finite state) = Ok (finite s) /\
                 peak = I_of s).
Proof.
  intro state.
  destruct (@seir_run_recovered 200 state) as (out & Hrun & Hlen & _ & HD).
  { reflexivity. }
  { reflexivity. }
  destruct (@seir_peak_loop_run 200 state out (Py 0) 0 eq_refl Hrun)
    as (mx' & peak & Hloop & Hpeak & Hpos & Hall & Hatt).
  exists out, peak. split; [exact Hrun |]. split.
  { unfold seir_outputs. rewrite finite_app. fold state. rewrite Hloop.
    cbn [Result.bind]. rewrite Hpeak.
    rewrite np_item_finite by (rewrite Hlen; lia). reflexivity. }
  split; [exact HD |]. split; [exact Hpos |]. split; assumption.
Qed.

Lemma seir_outputs_four_rates (params : list Q) :
  length params = 4%nat ->
  exists final peak,
    seir_outputs (finite params) = Ok (Fin final, Fin peak) /\
    2300 <= final /\ 0 <= peak.
Proof.
  intro Hlen.
  destruct (@seir_run_recovered 200 (initial_state ++ params))
    as (out & Hrun & Hlo & _ & HD).
  { rewrite length_app, Hlen. reflexivity. }
  { reflexivity. }
  destruct (@seir_peak_loop_run 200 (initial_state ++ params) out (Py 0) 0
              eq_refl Hrun)
    as (mx' & peak & Hloop & Hpeak & Hpos & _).
  exists (D_of out), peak. split; [| split; [exact HD | exact Hpos]].
  unfold seir_outputs. rewrite finite_app, Hloop.
  cbn [Result.bind]. rewrite Hpeak.
  rewrite np_item_finite by (rewrite Hlo; lia). reflexivity.
Qed.

Lemma seir_outputs_wrong_length (params : list Q) :
  length params <> 4%nat -> seir_outputs (finite params) = Raise ValueError.
Proof.
  intro Hlen.
  assert (Hstep : seir_step (finite (initial_state ++ params))
                  = Raise ValueError).
  { apply seir_step_wrong_length. rewrite finite_length, length_app.
    cbn [initial_state length]. lia. }
  assert (Hrun : seir_run 200 (finite (initial_state ++ params))
                 = Raise ValueError).
  { change (seir_run 200 (finite (initial_state ++ params)))
      with (Result.bind (seir_step (finite (initial_state ++ params)))
                        (seir_run 199)).
    rewrite Hstep. reflexivity. }
  unfold seir_outputs. rewrite finite_app.
  rewrite (seir_peak_loop_raises 200 _ _ Hrun). reflexivity.
Qed.

Lemma generate_outputs_seir_loop_ok (rows : list (list Q)) :
  Forall (fun params => length params = 4%nat) rows ->
  forall output_final output_max : list Q,
  exists finals peaks,
    generate_outputs_seir_loop (map finite rows)
                               (finite output_final) (finite output_max)
    = Ok (finite (output_final ++ finals), finite (output_max ++ peaks)) /\
    length finals = length rows /\ length peaks = length rows /\
    Forall (Qle 2300) finals /\ Forall (Qle 0) peaks /\
    Forall2 (fun params row =>
               seir_outputs (finite params) = Ok (Fin (fst row), Fin (snd row)))
            rows (combine finals peaks).
Proof.
  induction 1 as [| params rows Hlen _ IH]; intros output_final output_max.
  - exists [], []. cbn. rewrite !app_nil_r.
    repeat split; constructor.
  - destruct (seir_outputs_four_rates _ Hlen) as (final & peak & Hrow & Hf & Hp).
    destruct (IH (output_final ++ [final]) (output_max ++ [peak]))
      as (finals & peaks & Hloop & Hlf & Hlp & HFf & HFp & Hrows).
    exists (final :: finals), (peak :: peaks).
    cbn [map generate_outputs_seir_loop]. rewrite Hrow. cbn [Result.bind].
    change [Fin final] with (finite [final]).
    change [Fin peak] with (finite [peak]).
    rewrite !finite_app, Hloop, <- !app_assoc. cbn [app length combine].
    repeat split; try (constructor; assumption); congruence.
Qed.

Lemma generate_outputs_seir_loop_raises (rows : list (list Q)) :
  Exists (fun params => length params <> 4%nat) rows ->
  forall output_final output_max,
    generate_outputs_seir_loop (map finite rows) output_final output_max
    = Raise ValueError.
Proof.
  induction rows as [| params rows IH]; intros Hex output_final output_max.
  - inversion Hex.
  - cbn [map generate_outputs_seir_loop].
    destruct (Nat.eq_dec (length params) 4) as [Hlen | Hlen].
    + destruct (seir_outputs_four_rates _ Hlen) as (final & peak & -> & _).
      cbn [Result.bind]. apply IH.
      inversion Hex as [? ? Hbad | ? ? Hrest]; [contradiction | exact Hrest].
    + rewrite (seir_outputs_wrong_length _ Hlen). reflexivity.
Qed.

(** On rows of four finite rates each, of any values,
    [generate_outputs_seir] returns two lists with one entry per row, in the
    order of the rows: the entries for a row are the two values its 200-step
    run gives, every final D is at least 2300 and every peak of I is at
    least 0.  No row makes it divide by zero. *)
Theorem generate_outputs_seir_rows (rows : list (list Q)) :
  Forall (fun params => length params = 4%nat) rows ->
  exists output_final output_max,
    generate_outputs_seir (map finite rows)
    = Ok (finite output_final, finite output_max) /\
    length output_final = length rows /\
    length output_max = length rows /\
    Forall (Qle 2300) output_final /\ Forall (Qle 0) output_max /\
    Forall2 (fun params row =>
               seir_outputs (finite params) = Ok (Fin (fst row), Fin (snd row)))
            rows (combine output_final output_max).
Proof.
  intro Hrows.
  destruct (generate_outputs_seir_loop_ok Hrows [] [])
    as (finals & peaks & Hloop & H).
  exists finals, peaks. split; [exact Hloop | exact H].
Qed.

Lemma generate_outputs_seir_rows_witness :
  exists output_final output_max,
    generate_outputs_seir
      (map finite
           [[7 # 1000; 2; 2 # 10; 14 # 100]; [1 # 100; 7; 1 # 2; 1 # 2]])
    = Ok (finite output_final, finite output_max) /\
    length output_final = 2%nat /\
    length output_max = 2%nat /\
    Forall (Qle 2300) output_final /\ Forall (Qle 0) output_max /\
    Forall2 (fun params row =>
               seir_outputs (finite params) = Ok (Fin (fst row), Fin (snd row)))
            [[7 # 1000; 2; 2 # 10; 14 # 100]; [1 # 100; 7; 1 # 2; 1 # 2]]
            (combine output_final output_max).
Proof.
  apply (@generate_outputs_seir_rows
           [[7 # 1000; 2; 2 # 10; 14 # 100]; [1 # 100; 7; 1 # 2; 1 # 2]]).
  repeat constructor.
Defined.

(** A row that does not have four rates makes [generate_outputs_seir] raise
    [ValueError], whatever the other rows are. *)
Theorem generate_outputs_seir_bad_row (rows : list (list Q)) :
  Exists (fun params => length params <> 4%nat) rows ->
  generate_outputs_seir (map finite rows) = Raise ValueError.
Proof.
  intro Hex. apply generate_outputs_seir_loop_raises, Hex.
Qed.

Lemma generate_outputs_seir_bad_row_witness :
  generate_outputs_seir
    (map finite [[7 # 1000; 2; 2 # 10; 14 # 100]; [1 # 100; 7]])
  = Raise ValueError.
Proof.
  apply (@generate_outputs_seir_bad_row
           [[7 # 1000; 2; 2 # 10; 14 # 100]; [1 # 100; 7]]).
  apply Exists_cons_tl, Exists_cons_hd. cbn. discriminate.
Defined.

(** ** The simulation loop *)

Lemma assign_row_state (state : list np_float) :
  length state = 9%nat -> assign_row (firstn 5 state) = Ok (firstn 5 state).
Proof.
  intro H. do 10 (destruct state as [| ? state]; try discriminate H).
  reflexivity.
Qed.

Lemma firstn_finite (n : nat) (l : list Q) :
  firstn n (finite l) = finite (firstn n l).
Proof. unfold finite. apply firstn_map. Qed.

Lemma seir_simulation_loop_run (days : nat) :
  forall (state out : list Q) (states : list (list Q)),
    length state = 9%nat ->
    seir_run days (finite state) = Ok (finite out) ->
    exists rows,
      seir_simulation_loop days (finite state) (map finite states)
      = Ok (map finite (states ++ rows)) /\
      length rows = days /\
      forall i, (i < days)%nat ->
                exists s, seir_run i (finite state) = Ok (finite s) /\
                          nth_error rows i = Some (firstn 5 s).
Proof.
  induction days as [| days IH]; intros state out states Hlen Hrun.
  - cbn. exists []. rewrite app_nil_r. repeat split. intros i Hi. lia.
  - destruct (@seir_run_first_step _ _ _ Hrun) as (mid & Hstep & Hrest).
    assert (Hlen' : length mid = 9%nat).
    { rewrite <- finite_length. apply (seir_step_length _ Hstep). }
    cbn [seir_simulation_loop].
    rewrite assign_row_state by (rewrite finite_length; exact Hlen).
    cbn [Result.bind]. rewrite Hstep. cbn [Result.bind].
    rewrite firstn_finite.
    change [finite (firstn 5 state)] with (map finite [firstn 5 state]).
    rewrite <- map_app.
    destruct (IH mid out (states ++ [firstn 5 state]) Hlen' Hrest)
      as (rows & Hloop & Hrows & Hnth).
    exists (firstn 5 state :: rows). rewrite Hloop, <- app_assoc.
    split; [reflexivity |]. split; [cbn; lia |].
    intros i Hi. destruct i as [| i].
    + exists state. split; reflexivity.
    + destruct (Hnth i) as (s & Hs & Hrow); [lia |].
      exists s. cbn [seir_run nth_error]. rewrite Hstep. split; assumption.
Qed.

(** From non-negative compartments with a positive alive total and rates in
    their documented bounds, the simulation loop fills all [days] rows with
    finite numbers: row [i] holds S, E, I, R, D of the state after [i] steps
    (row 0 the initial state), and down the rows the D column never
    decreases. *)
Theorem seir_simulation_rows
        (S E I R D alfa beta eps gamma : Q) (days : nat) :
  compartments_nonneg S E I R D ->
  documented_bounds alfa beta eps gamma ->
  0 < S + E + I + R ->
  let state := [S; E; I; R; D; alfa; beta; eps; gamma] in
  exists rows,
    seir_simulation days (finite state) = Ok (map finite rows) /\
    length rows = days /\
    (forall i, (i < days)%nat ->
               exists s, seir_run i (finite state) = Ok (finite s) /\
                         nth_error rows i = Some (firstn 5 s)) /\
    (forall i j row_i row_j,
        (i <= j)%nat ->
        nth_error rows i = Some row_i -> nth_error rows j = Some row_j ->
        item 4 row_i <= item 4 row_j).
Proof.
  intros Hc Hb HN state.
  assert (Hlive : seir_live state).
  { destruct Hc as (HS & HE & HI & HR & HD).
    exists S, E, I, R, D, alfa, beta, eps, gamma.
    rewrite (clamp_id HS). repeat split; try assumption; apply Hb. }
  destruct (seir_live_run days Hlive) as (out & Hout).
  destruct (@seir_simulation_loop_run days state out [] eq_refl Hout)
    as (rows & Hloop & Hlen & Hnth).
  exists rows. split; [exact Hloop |]. split; [exact Hlen |].
  split; [exact Hnth |].
  intros i j row_i row_j Hij Hi Hj.
  assert (Hjd : (j < days)%nat).
  { rewrite <- Hlen. apply nth_error_Some. congruence. }
  destruct (Hnth i) as (si & Hsi & Hri); [lia |].
  destruct (Hnth j) as (sj & Hsj & Hrj); [exact Hjd |].
  assert (Ei : row_i = firstn 5 si) by congruence.
  assert (Ej : row_j = firstn 5 sj) by congruence.
  subst row_i row_j.
  assert (Hfirst : forall s, item 4 (firstn 5 s) = D_of s).
  { intro s. unfold D_of, item.
    do 5 (destruct s as [| ? s]; [reflexivity |]). reflexivity. }
  rewrite !Hfirst.
  replace j with (i + (j - i))%nat in Hsj by lia.
  rewrite seir_run_add, Hsi in Hsj. cbn [Result.bind] in Hsj.
  apply (@seir_run_deaths _ _ _ Hsj).
Qed.

Lemma seir_simulation_rows_witness :
  exists rows,
    seir_simulation 365 (finite seir_example) = Ok (map finite rows) /\
    length rows = 365%nat /\
    (forall i, (i < 365)%nat ->
               exists s, seir_run i (finite seir_example) = Ok (finite s) /\
                         nth_error rows i = Some (firstn 5 s)) /\
    (forall i j row_i row_j,
        (i <= j)%nat ->
        nth_error rows i = Some row_i -> nth_error rows j = Some row_j ->
        item 4 row_i <= item 4 row_j).
Proof.
  apply (@seir_simulation_rows
           39900000 60000 10000 80000 2300 (7 # 1000) 2 (2 # 10) (14 # 100)
           365 seir_example_compartments seir_example_bounds).
  reflexivity.
Defined.

(** On a vector that does not have nine items the simulation loop raises
    [ValueError] in its first iteration, at the row assignment or at the
    step. *)
Theorem seir_simulation_wrong_length (days : nat) (state : list np_float) :
  length state <> 9%nat -> (0 < days)%nat ->
  seir_simulation days state = Raise ValueError.
Proof.
  intros Hlen Hdays. destruct days as [| days]; [lia |].
  unfold seir_simulation. cbn [seir_simulation_loop].
  rewrite (seir_step_wrong_length _ Hlen).
  destruct (assign_row (firstn 5 state)) as [row | e] eqn:Hrow;
    cbn [Result.bind]; [reflexivity |].
  unfold assign_row in Hrow.
  destruct (firstn 5 state) as [| a [| b [| c [| d0 [| e0 [| f l]]]]]];
    congruence.
Qed.

Lemma seir_simulation_wrong_length_witness :
  seir_simulation 365 (finite [40000000; 1; 0; 0; 0]) = Raise ValueError.
Proof.
  apply (@seir_simulation_wrong_length 365 (finite [40000000; 1; 0; 0; 0])).
  - cbn. discriminate.
  - lia.
Defined.

(** ** The Lorenz step *)

(** [lorenz_evol_step] raises [ValueError] exactly on a vector that does not
    have six items; on six items it returns six items, whatever their
    values. *)
Theorem lorenz_evol_step_value_error_iff (state : list np_float) :
  (lorenz_evol_step state = Raise ValueError <-> length state <> 6%nat) /\
  (length state = 6%nat ->
   exists out, lorenz_evol_step state = Ok out /\ length out = 6%nat).
Proof.
  do 7 (destruct state as [| ? state];
        [try (split; [split; [intros _; cbn; discriminate
                             | intros _; reflexivity]
                     | intro K; discriminate K]) |]).
  - split; [split; [intro K; discriminate K
                   | intro K; exfalso; apply K; reflexivity] |].
    intros _. eexists. split; reflexivity.
  - split; [split; [intros _; cbn; lia | intros _; reflexivity]
           | intro K; cbn in K; lia].
Qed.

Lemma Qabs_opp_eq (x : Q) : Qabs (- x) = Qabs x.
Proof.
  destruct x as [n dn]. unfold Qabs, Qopp. cbn.
  rewrite Z.abs_opp. reflexivity.
Qed.

Lemma Qabs_idem (x : Q) : Qabs (Qabs x) = Qabs x.
Proof.
  destruct x as [n dn]. unfold Qabs.
  rewrite Z.abs_idemp. reflexivity.
Qed.

(** The step does not see the sign of a parameter: flipping the sign of
    rho, of sigma or of beta in the input gives the same returned state. *)
Theorem lorenz_evol_step_parameter_sign (x y z rho sigma beta : Q) :
  lorenz_evol_step (finite [x; y; z; - rho; sigma; beta])
  = lorenz_evol_step (finite [x; y; z; rho; sigma; beta]) /\
  lorenz_evol_step (finite [x; y; z; rho; - sigma; beta])
  = lorenz_evol_step (finite [x; y; z; rho; sigma; beta]) /\
  lorenz_evol_step (finite [x; y; z; rho; sigma; - beta])
  = lorenz_evol_step (finite [x; y; z; rho; sigma; beta]).
Proof.
  rewrite !lorenz_evol_step_unfold, !Qabs_opp_eq. repeat split.
Qed.

(** The symmetry of the Lorenz system under (x, y, z) -> (-x, -y, z) holds
    for the discrete step: negating x and y in the input negates x and y in
    the returned state and leaves z and the parameters as they are. *)
Theorem lorenz_evol_step_reflection (x y z rho sigma beta : Q) :
  exists out out',
    lorenz_evol_step (finite [x; y; z; rho; sigma; beta]) = Ok (finite out) /\
    lorenz_evol_step (finite [- x; - y; z; rho; sigma; beta])
    = Ok (finite out') /\
    item 0 out' == - item 0 out /\ item 1 out' == - item 1 out /\
    item 2 out' == item 2 out /\ skipn 3 out' = skipn 3 out.
Proof.
  do 2 eexists. split; [apply lorenz_evol_step_unfold |].
  split; [apply lorenz_evol_step_unfold |].
  unfold item. cbn [nth skipn].
  repeat split; ring.
Qed.

(** The origin is a fixed point of the step for all parameters, and the z
    axis is kept: with x = y = 0 the step returns x = y = 0 and
    z * (1 - 0.01 * |beta|). *)
Theorem lorenz_evol_step_z_axis (z rho sigma beta : Q) :
  exists out,
    lorenz_evol_step (finite [0; 0; z; rho; sigma; beta]) = Ok (finite out) /\
    item 0 out == 0 /\ item 1 out == 0 /\
    item 2 out == z * (1 - (1 # 100) * Qabs beta) /\
    (z == 0 -> item 2 out == 0).
Proof.
  eexists. split; [apply lorenz_evol_step_unfold |].
  unfold item. cbn [nth].
  repeat split; try ring.
  intro Hz. rewrite Hz. ring.
Qed.

(** The two other equilibria of the Lorenz system are fixed points of the
    step: when c * c = |beta| * (|rho| - 1), the step returns the dynamic
    components of (c, c, |rho| - 1) and of (-c, -c, |rho| - 1) unchanged. *)
Theorem lorenz_evol_step_equilibria (c rho sigma beta : Q) :
  c * c == Qabs beta * (Qabs rho - 1) ->
  exists out out',
    lorenz_evol_step (finite [c; c; Qabs rho - 1; rho; sigma; beta])
    = Ok (finite out) /\
    lorenz_evol_step (finite [- c; - c; Qabs rho - 1; rho; sigma; beta])
    = Ok (finite out') /\
    (item 0 out == c /\ item 1 out == c /\ item 2 out == Qabs rho - 1) /\
    (item 0 out' == - c /\ item 1 out' == - c /\
     item 2 out' == Qabs rho - 1).
Proof.
  intro Hc.
  do 2 eexists. split; [apply lorenz_evol_step_unfold |].
  split; [apply lorenz_evol_step_unfold |].
  unfold item. cbn [nth].
  assert (Hc' : - c * - c == Qabs beta * (Qabs rho - 1))
    by (rewrite <- Hc; ring).
  repeat split; try ring.
  - rewrite Hc. ring.
  - rewrite Hc'. ring.
Qed.

Lemma lorenz_evol_step_equilibria_witness :
  exists out out',
    lorenz_evol_step (finite [9; 9; Qabs 28 - 1; 28; 10; 3])
    = Ok (finite out) /\
    lorenz_evol_step (finite [- (9); - (9); Qabs 28 - 1; 28; 10; 3])
    = Ok (finite out') /\
    (item 0 out == 9 /\ item 1 out == 9 /\ item 2 out == Qabs 28 - 1) /\
    (item 0 out' == - (9) /\ item 1 out' == - (9) /\
     item 2 out' == Qabs 28 - 1).
Proof.
  apply (@lorenz_evol_step_equilibria 9 28 10 3).
  vm_compute. reflexivity.
Defined.

Lemma lorenz_advance_ok (n : nat) :
  forall state,
    length state = 6%nat ->
    exists out, advance lorenz_evol_step n state = Ok out.
Proof.
  induction n as [| n IH]; intros state Hlen.
  - exists state. reflexivity.
  - do 7 (destruct state as [| ? state]; try discriminate Hlen).
    cbn [advance].
    match goal with
    | |- context [lorenz_evol_step ?l] =>
        destruct (lorenz_evol_step l) as [out |] eqn:Hstep;
        [| discriminate Hstep]
    end.
    cbn [Result.bind]. apply IH.
    cbn in Hstep. injection Hstep as <-. reflexivity.
Qed.

(** A Lorenz trajectory never raises: any number of steps from a vector of
    six finite items returns six finite items, and after the first step the
    parameters are the absolute values of the initial ones and stay so. *)
Theorem lorenz_trajectory_parameters (x y z rho sigma beta : Q) (n : nat) :
  exists out,
    advance lorenz_evol_step (S n) (finite [x; y; z; rho; sigma; beta])
    = Ok (finite out) /\
    length out = 6%nat /\
    skipn 3 out = [Qabs rho; Qabs sigma; Qabs beta].
Proof.
  revert x y z rho sigma beta.
  induction n as [| n IH]; intros x y z rho sigma beta.
  - cbn [advance]. rewrite lorenz_evol_step_unfold. cbn [Result.bind].
    eexists. repeat split.
  - change (advance lorenz_evol_step (S (S n))
                    (finite [x; y; z; rho; sigma; beta]))
      with (Result.bind (lorenz_evol_step (finite [x; y; z; rho; sigma; beta]))
                        (advance lorenz_evol_step (S n))).
    rewrite lorenz_evol_step_unfold. cbn [Result.bind].
    destruct (IH (x + (1 # 100) * (Qabs sigma * (y - x)))
                 (y + (1 # 100) * (x * (Qabs rho - z) - y))
                 (z + (1 # 100) * (x * y - Qabs beta * z))
                 (Qabs rho) (Qabs sigma) (Qabs beta))
      as (out & Hout & Hlen & Hpar).
    rewrite !Qabs_idem in Hpar.
    exists out. repeat split; assumption.
Qed.

(** ** The Lorenz derivatives *)

(** For finite numbers with sigma and beta different from 0, the three
    derivatives returned by [lorenz_step] all vanish exactly at the origin
    and at the points with x = y, z = rho - 1 and
    x * x = beta * (rho - 1). *)
Theorem lorenz_step_stationary_iff (x y z rho sigma beta : Q) :
  ~ sigma == 0 -> ~ beta == 0 ->
  exists dx dy dz,
    lorenz_step [Np (Fin x); Np (Fin y); Np (Fin z)]
                (Np (Fin rho)) (Np (Fin sigma)) (Np (Fin beta))
    = Ok (Np (Fin dx), Np (Fin dy), Np (Fin dz)) /\
    ((dx == 0 /\ dy == 0 /\ dz == 0) <->
     (x == 0 /\ y == 0 /\ z == 0) \/
     (y == x /\ z == rho - 1 /\ x * x == beta * (rho - 1))).
Proof.
  intros Hs Hb. do 3 eexists. split; [reflexivity |].
  split.
  - intros (Hx & Hy & Hz).
    assert (Hyx : y == x).
    { apply Qmult_integral in Hx. destruct Hx as [K | K]; [contradiction |].
      lra. }
    rewrite Hyx in Hy, Hz.
    assert (Hx' : x * (rho - 1 - z) == 0) by nra.
    apply Qmult_integral in Hx'. destruct Hx' as [K | K].
    + left. rewrite K in Hz.
      assert (Hbz : beta * z == 0) by nra.
      apply Qmult_integral in Hbz. destruct Hbz as [K' | K'];
        [contradiction |].
      repeat split; [exact K | rewrite Hyx; exact K | exact K'].
    + right. assert (Hzr : z == rho - 1) by lra.
      repeat split; [exact Hyx | exact Hzr |].
      rewrite <- Hzr. nra.
  - intros [(Hx & Hy & Hz) | (Hy & Hz & Hxx)].
    + rewrite Hx, Hy, Hz. repeat split; ring.
    + rewrite Hy, Hz. repeat split; try ring.
      rewrite Hxx. ring.
Qed.

Lemma lorenz_step_stationary_iff_witness :
  exists dx dy dz,
    lorenz_step [Np (Fin 9); Np (Fin 9); Np (Fin 27)]
                (Np (Fin 28)) (Np (Fin 10)) (Np (Fin 3))
    = Ok (Np (Fin dx), Np (Fin dy), Np (Fin dz)) /\
    ((dx == 0 /\ dy == 0 /\ dz == 0) <->
     (9 == 0 /\ 9 == 0 /\ 27 == 0) \/
     (9 == 9 /\ 27 == 28 - 1 /\ 9 * 9 == 3 * (28 - 1))).
Proof.
  apply (@lorenz_step_stationary_iff 9 9 27 28 10 3);
    vm_compute; discriminate.
Defined.

(** ** The observation generator with any callables *)

Section GeneratorAny.

Variables G X Obs : Type.

Lemma prepare_obs_loop_length
      (H : X -> py G Obs) (M : X -> py G X) (remaining : nat) :
  forall (state : X) (observations obs : list Obs) (g g' : G),
    prepare_obs_loop H M remaining state observations g = (Ok obs, g') ->
    length obs = (length observations + remaining)%nat.
Proof.
  induction remaining as [| remaining IH];
    intros state observations obs g g' Hrun.
  - cbn in Hrun. unfold py_ret in Hrun. injection Hrun as <- _. lia.
  - cbn [prepare_obs_loop] in Hrun. unfold py_bind in Hrun.
    destruct (H state g) as [[o | e] g1]; [| discriminate Hrun].
    destruct (M state g1) as [[state' | e] g2]; [| discriminate Hrun].
    apply IH in Hrun. rewrite length_app in Hrun. cbn in Hrun. lia.
Qed.

Lemma prepare_obs_loop_partial_step
      (H : X -> Obs) (M : X -> result X) (remaining : nat)
      (state : X) (observations : list Obs) (g : G) :
  prepare_obs_loop (pure_fn H) (partial_fn M) (S remaining) state
                   observations g
  = match M state with
    | Ok state' =>
        prepare_obs_loop (pure_fn H) (partial_fn M) remaining state'
                         (observations ++ [H state]) g
    | Raise e => (Raise e, g)
    end.
Proof.
  cbn [prepare_obs_loop]. unfold py_bind, pure_fn, py_ret, partial_fn.
  destruct (M state); reflexivity.
Qed.

Lemma prepare_obs_loop_partial
      (H : X -> Obs) (M : X -> result X) (remaining : nat) :
  forall (state : X) (observations : list Obs) (g : G),
    match advance M remaining state with
    | Raise e =>
        prepare_obs_loop (pure_fn H) (partial_fn M) remaining state
                         observations g = (Raise e, g)
    | Ok _ =>
        exists obs,
          prepare_obs_loop (pure_fn H) (partial_fn M) remaining state
                           observations g = (Ok (observations ++ obs), g) /\
          length obs = remaining /\
          forall i, (i < remaining)%nat ->
                    exists s, advance M i state = Ok s /\
                              nth_error obs i = Some (H s)
    end.
Proof.
  induction remaining as [| remaining IH]; intros state observations g.
  - cbn. exists []. rewrite app_nil_r. repeat split. intros i Hi. lia.
  - rewrite prepare_obs_loop_partial_step. cbn [advance].
    destruct (M state) as [state' | e] eqn:Hstep; cbn [Result.bind];
      [| reflexivity].
    specialize (IH state' (observations ++ [H state]) g).
    destruct (advance M remaining state') as [final | e]; [| exact IH].
    destruct IH as (obs & Hloop & Hlen & Hnth).
    exists (H state :: obs). rewrite Hloop, <- app_assoc.
    split; [reflexivity |]. split; [cbn; lia |].
    intros i Hi. destruct i as [| i].
    + exists state. split; reflexivity.
    + destruct (Hnth i) as (s & Hs & Hobs); [lia |].
      exists s. cbn [advance nth_error]. rewrite Hstep. split; assumption.
Qed.

End GeneratorAny.

(** For a count that is zero or negative [prepare_obs] returns the empty
    list and calls neither callable: the store is left as it was, whatever
    the callables would do. *)
Theorem prepare_obs_nonpositive_size
        (G X Obs : Type) (x0 : X) (H : X -> py G Obs) (M : X -> py G X)
        (N : Z) (g : G) :
  (N <= 0)%Z -> prepare_obs x0 H M N g = (Ok [], g).
Proof.
  intro HN. unfold prepare_obs.
  replace (Z.to_nat N) with 0%nat by lia. reflexivity.
Qed.

Lemma prepare_obs_nonpositive_size_witness :
  prepare_obs 5%Z (pure_fn (fun x : Z => x))
              (fun (x g : Z) => (Ok (x + g)%Z, (g + 1)%Z)) (-3) 7%Z
  = (Ok [], 7%Z).
Proof.
  apply (@prepare_obs_nonpositive_size
           Z Z Z 5%Z (pure_fn (fun x : Z => x))
           (fun (x g : Z) => (Ok (x + g)%Z, (g + 1)%Z)) (-3)%Z 7%Z).
  vm_compute. discriminate.
Defined.

(** Whatever the callables do to the store, a list returned by
    [prepare_obs] has as many observations as the count asks for (none for a
    negative count). *)
Theorem prepare_obs_length
        (G X Obs : Type) (x0 : X) (H : X -> py G Obs) (M : X -> py G X)
        (N : Z) (g g' : G) (observations : list Obs) :
  prepare_obs x0 H M N g = (Ok observations, g') ->
  length observations = Z.to_nat N.
Proof.
  unfold prepare_obs. intro Hrun.
  apply prepare_obs_loop_length in Hrun. exact Hrun.
Qed.

Lemma prepare_obs_length_witness :
  length [0; 0; 1]%Z = Z.to_nat 3.
Proof.
  apply (@prepare_obs_length
           Z Z Z 0%Z (pure_fn (fun x : Z => x))
           (fun (x g : Z) => (Ok (x + g)%Z, (g + 1)%Z)) 3%Z 0%Z 3%Z
           [0; 0; 1]%Z).
  vm_compute. reflexivity.
Defined.

(** With a transition function that may raise, [prepare_obs] asks for as
    many advances as observations: if the [N]-th advance from the starting
    state raises, so does [prepare_obs], with the same exception and the
    store unchanged; otherwise it returns [N] observations, the [i]-th being
    the observation of the state after [i] advances. *)
Theorem prepare_obs_raising_transition
        (G X Obs : Type) (x0 : X) (H : X -> Obs) (M : X -> result X)
        (N : Z) (g : G) :
  match advance M (Z.to_nat N) x0 with
  | Raise e => prepare_obs x0 (pure_fn H) (partial_fn M) N g = (Raise e, g)
  | Ok _ =>
      exists observations,
        prepare_obs x0 (pure_fn H) (partial_fn M) N g = (Ok observations, g) /\
        length observations = Z.to_nat N /\
        forall i, (i < Z.to_nat N)%nat ->
                  exists s, advance M i x0 = Ok s /\
                            nth_error observations i = Some (H s)
  end.
Proof.
  unfold prepare_obs.
  exact (@prepare_obs_loop_partial G X Obs H M (Z.to_nat N) x0 [] g).
Qed.

Lemma map_seq_from (A : Type) (start len : nat) :
  forall f : nat -> A,
    map f (seq start len) = map (fun i => f (start + i)%nat) (seq 0 len).
Proof.
  induction start as [| start IH]; intro f.
  - reflexivity.
  - rewrite <- seq_shift, map_map. rewrite IH. reflexivity.
Qed.

(** A sequence of [n + m] observations is the sequence of the first [n]
    followed by the [m] observations generated from the state reached after
    [n] advances. *)
Theorem prepare_obs_split
        (G X Obs : Type) (x0 : X) (H : X -> Obs) (M : X -> X) (n m : Z)
        (g : G) :
  (0 <= n)%Z -> (0 <= m)%Z ->
  exists first rest,
    prepare_obs x0 (pure_fn H) (pure_fn M) n g = (Ok first, g) /\
    prepare_obs (Nat.iter (Z.to_nat n) M x0) (pure_fn H) (pure_fn M) m g
    = (Ok rest, g) /\
    prepare_obs x0 (pure_fn H) (pure_fn M) (n + m) g
    = (Ok (first ++ rest), g).
Proof.
  intros Hn Hm. unfold prepare_obs. rewrite !prepare_obs_loop_pure.
  cbn [app]. do 2 eexists. split; [reflexivity |]. split; [reflexivity |].
  rewrite Z2Nat.inj_add by assumption.
  rewrite seq_app, map_app. cbn [Nat.add].
  do 3 f_equal.
  rewrite map_seq_from. apply map_ext. intro i.
  f_equal. rewrite Nat.add_comm. apply Nat.iter_add.
Qed.

Lemma prepare_obs_split_witness :
  exists first rest,
    prepare_obs (G := unit) 8 (pure_fn (fun x => x + 1))
                (pure_fn (fun x => x * (1 # 2))) 2 tt = (Ok first, tt) /\
    prepare_obs (Nat.iter (Z.to_nat 2) (fun x => x * (1 # 2)) 8)
                (pure_fn (fun x => x + 1))
                (pure_fn (fun x => x * (1 # 2))) 1 tt = (Ok rest, tt) /\
    prepare_obs 8 (pure_fn (fun x => x + 1))
                (pure_fn (fun x => x * (1 # 2))) (2 + 1) tt
    = (Ok (first ++ rest), tt).
Proof.
  apply (@prepare_obs_split
           unit Q Q 8 (fun x => x + 1) (fun x => x * (1 # 2)) 2%Z 1%Z tt);
    vm_compute; discriminate.
Defined.

Lemma advance_seir_step (n : nat) :
  forall state, advance seir_step n state = seir_run n state.
Proof.
  induction n as [| n IH]; intro state; cbn; [reflexivity |].
  destruct (seir_step state); cbn; [apply IH | reflexivity].
Qed.

(** The notebook's use of the generator on the SEIR model: from non-negative
    compartments with a positive alive total and rates in their documented
    bounds, [prepare_obs] with [seir_step] as transition function never
    raises; it returns the observations of the states of the run, which are
    finite numbers, one per step asked for. *)
Theorem prepare_obs_seir_returns
        (G Obs : Type) (H : list np_float -> Obs)
        (S E I R D alfa beta eps gamma : Q) (size : Z) (g : G) :
  compartments_nonneg S E I R D ->
  documented_bounds alfa beta eps gamma ->
  0 < S + E + I + R ->
  let state := [S; E; I; R; D; alfa; beta; eps; gamma] in
  exists observations,
    prepare_obs (finite state) (pure_fn H) (partial_fn seir_step) size g
    = (Ok observations, g) /\
    length observations = Z.to_nat size /\
    forall i, (i < Z.to_nat size)%nat ->
              exists s, seir_run i (finite state) = Ok (finite s) /\
                        nth_error observations i = Some (H (finite s)).
Proof.
  intros Hc Hb HN state.
  assert (Hlive : seir_live state).
  { destruct Hc as (HS & HE & HI & HR & HD).
    exists S, E, I, R, D, alfa, beta, eps, gamma.
    rewrite (clamp_id HS). repeat split; try assumption; apply Hb. }
  destruct (seir_live_run (Z.to_nat size) Hlive) as (out & Hout).
  pose proof (@prepare_obs_loop_partial G (list np_float) Obs H seir_step
                (Z.to_nat size) (finite state) [] g) as Hloop.
  rewrite advance_seir_step, Hout in Hloop.
  destruct Hloop as (obs & Hrun & Hlen & Hnth).
  exists obs. split; [exact Hrun |]. split; [exact Hlen |].
  intros i Hi. destruct (Hnth i Hi) as (s & Hs & Hobs).
  rewrite advance_seir_step in Hs.
  assert (Hfin : exists s', s = finite s').
  { destruct (seir_live_run i Hlive) as (s' & Hs').
    exists s'. congruence. }
  destruct Hfin as (s' & ->).
  exists s'. split; assumption.
Qed.

Lemma prepare_obs_seir_returns_witness :
  exists observations,
    prepare_obs (G := unit) (finite seir_example) (pure_fn (np_item 4))
                (partial_fn seir_step) 200 tt
    = (Ok observations, tt) /\
    length observations = Z.to_nat 200 /\
    forall i, (i < Z.to_nat 200)%nat ->
              exists s, seir_run i (finite seir_example) = Ok (finite s) /\
                        nth_error observations i
                        = Some (np_item 4 (finite s)).
Proof.
  apply (@prepare_obs_seir_returns
           unit np_float (np_item 4)
           39900000 60000 10000 80000 2300 (7 # 1000) 2 (2 # 10) (14 # 100)
           200%Z tt seir_example_compartments seir_example_bounds).
  reflexivity.
Defined.

(** The notebook's use of the generator on the Lorenz model: with
    [lorenz_evol_step] as transition function [prepare_obs] never raises on
    a vector of six items; it returns one observation per step asked for. *)
Theorem prepare_obs_lorenz_returns
        (G Obs : Type) (H : list np_float -> Obs)
        (x y z rho sigma beta : np_float) (size : Z) (g : G) :
  exists observations,
    prepare_obs [x; y; z; rho; sigma; beta] (pure_fn H)
                (partial_fn lorenz_evol_step) size g
    = (Ok observations, g) /\
    length observations = Z.to_nat size.
Proof.
  pose proof (@prepare_obs_loop_partial G (list np_float) Obs H
                lorenz_evol_step
                (Z.to_nat size) [x; y; z; rho; sigma; beta] [] g) as Hloop.
  destruct (@lorenz_advance_ok (Z.to_nat size) [x; y; z; rho; sigma; beta])
    as (out & Hout); [reflexivity |].
  rewrite Hout in Hloop.
  destruct Hloop as (obs & Hrun & Hlen & _).
  exists obs. split; assumption.
Qed.
